(** * FractalWonder URL decoder ([scripts/decode_url.py])

    A shallow embedding of the decoder script: the token decoder
    [decode_fractalwonder_url], the binary-to-decimal converter
    [binary_to_decimal], the renderer [format_bigfloat] and the report
    builder [format_viewport], together with the parts of the Python
    runtime they rest on (the [decimal] context and arithmetic, [int(s, 2)],
    [binascii.a2b_base64]).

    Python strings are modelled as Rocq strings (8-bit characters, so the
    code points below 256 of Python's [str]), Python integers as [Z],
    bytes as lists of integers below 256, exceptions as
    values of [exn], and the thread's decimal context as explicit state. *)

From Stdlib Require Import ZArith QArith Qabs Qpower Qfield String Ascii List Bool Lia.
From Stdlib Require Import Floats Uint63.
Import ListNotations.

#[local] Set Warnings "-register-all,-inexact-float".

Open Scope Z_scope.

(* ------------------------------------------------------------------ *)
(** ** Exceptions and the effect monad *)

(** The exception classes the script can meet.  [BinasciiError],
    [UnicodeDecodeError] and [JSONDecodeError] are subclasses of
    [ValueError] in Python; [DecimalOverflow] is [decimal.Overflow]. *)
Inductive exn : Type :=
| ValueError
| BinasciiError
| ZlibError
| UnicodeDecodeError
| JSONDecodeError
| DecimalOverflow
| AttributeError
| TypeError
| IndexError
| KeyError
| OverflowError.

Definition exn_eqb (a b : exn) : bool :=
  match a, b with
  | ValueError, ValueError | BinasciiError, BinasciiError
  | ZlibError, ZlibError | UnicodeDecodeError, UnicodeDecodeError
  | JSONDecodeError, JSONDecodeError | DecimalOverflow, DecimalOverflow
  | AttributeError, AttributeError | TypeError, TypeError
  | IndexError, IndexError | KeyError, KeyError
  | OverflowError, OverflowError => true
  | _, _ => false
  end.

(** [isinstance(e, ValueError)], following Python's class hierarchy. *)
Definition is_ValueError (e : exn) : bool :=
  match e with
  | ValueError | BinasciiError | UnicodeDecodeError | JSONDecodeError => true
  | _ => false
  end.

(** The part of [decimal.getcontext()] the script writes: the working
    precision.  The other settings stay at Python's defaults, which are
    the constants [Emax], [Emin] below, rounding [ROUND_HALF_EVEN] and a
    trap on [Overflow]. *)
Record context : Type := mkContext { prec : Z }.

Definition default_context : context := mkContext 28.

Definition Emax : Z := 999999.
Definition Emin : Z := -999999.
Definition Etiny (c : context) : Z := Emin - prec c + 1.
Definition Etop (c : context) : Z := Emax - prec c + 1.

(** A computation reads and writes the decimal context and either
    raises or returns. *)
Definition M (A : Type) : Type := context -> (exn + A) * context.

Definition ret {A} (a : A) : M A := fun c => (inr a, c).
Definition raise {A} (e : exn) : M A := fun c => (inl e, c).
Definition bind {A B} (m : M A) (k : A -> M B) : M B :=
  fun c => match m c with
           | (inl e, c') => (inl e, c')
           | (inr a, c') => k a c'
           end.
Definition getcontext : M context := fun c => (inr c, c).
Definition set_prec (p : Z) : M unit := fun _ => (inr tt, mkContext p).
Definition lift {A} (r : exn + A) : M A := fun c => (r, c).

Declare Scope monad_scope.
Delimit Scope monad_scope with monad.
Notation "x <- m ;; k" := (bind m (fun x => k))
  (at level 61, m at next level, right associativity) : monad_scope.
Notation "m ;;; k" := (bind m (fun _ => k))
  (at level 61, right associativity) : monad_scope.
Open Scope monad_scope.

(* ------------------------------------------------------------------ *)
(** ** String primitives *)

Definition chr_eqb (a b : ascii) : bool := Ascii.eqb a b.

(** [s.startswith(p)] *)
Fixpoint startswith (p s : string) : bool :=
  match p with
  | EmptyString => true
  | String a p' =>
      match s with
      | EmptyString => false
      | String b s' => chr_eqb a b && startswith p' s'
      end
  end.

(** [s[n:]] *)
Fixpoint drop (n : nat) (s : string) : string :=
  match n with
  | O => s
  | S k => match s with EmptyString => EmptyString | String _ s' => drop k s' end
  end.

(** [s[:n]] *)
Fixpoint take (n : nat) (s : string) : string :=
  match n with
  | O => EmptyString
  | S k => match s with EmptyString => EmptyString | String a s' => String a (take k s') end
  end.

(** [ch in s] for a one-character [ch] *)
Fixpoint contains (ch : ascii) (s : string) : bool :=
  match s with
  | EmptyString => false
  | String a s' => chr_eqb a ch || contains ch s'
  end.

(** [s.split(ch, 1)] when [ch in s]: the text before the first [ch] and
    the text after it.  Without a [ch] the second component is empty. *)
Fixpoint split_first (ch : ascii) (s : string) : string * string :=
  match s with
  | EmptyString => (EmptyString, EmptyString)
  | String a s' =>
      if chr_eqb a ch then (EmptyString, s')
      else let '(l, r) := split_first ch s' in (String a l, r)
  end.

(** [s.lstrip(ch)] for a one-character [ch] *)
Fixpoint lstrip (ch : ascii) (s : string) : string :=
  match s with
  | EmptyString => EmptyString
  | String a s' => if chr_eqb a ch then lstrip ch s' else s
  end.

Definition len (s : string) : Z := Z.of_nat (String.length s).

Definition is_empty (s : string) : bool :=
  match s with EmptyString => true | _ => false end.

(* ------------------------------------------------------------------ *)
(** ** [int(s, 2)]

    CPython's [PyLong_FromString] with base 2 on an ASCII string: leading
    white space, an optional sign, an optional [0b]/[0B] prefix (one
    underscore may follow it), binary digits with single underscores
    between them, trailing white space.  Anything else is a
    [ValueError]. *)

(** [Py_ISSPACE]: space, [\t], [\n], [\v], [\f], [\r]. *)
Definition is_space (a : ascii) : bool :=
  let n := Z.of_nat (nat_of_ascii a) in
  (n =? 32) || ((9 <=? n) && (n <=? 13)).

Fixpoint skip_spaces (s : string) : string :=
  match s with
  | String a s' => if is_space a then skip_spaces s' else s
  | EmptyString => s
  end.

Definition skip_sign (s : string) : bool * string :=
  match s with
  | String "+" s' => (false, s')
  | String "-" s' => (true, s')
  | _ => (false, s)
  end.

Definition skip_prefix_0b (s : string) : string :=
  match s with
  | String "0" (String "b" s') | String "0" (String "B" s') =>
      match s' with
      | String "_" s'' => s''
      | _ => s'
      end
  | _ => s
  end.

(** The digit scan: [acc] is the value so far, [prev_us] tells whether
    the previous character was an underscore, [ndig] counts the
    characters consumed.  It stops at the first character that is neither
    a binary digit nor an underscore and returns the rest. *)
Fixpoint scan_binary (s : string) (acc : Z) (prev_us : bool) (nread : Z)
  : option (Z * Z * string) :=
  match s with
  | String "0" s' => scan_binary s' (2 * acc) false (nread + 1)
  | String "1" s' => scan_binary s' (2 * acc + 1) false (nread + 1)
  | String "_" s' =>
      if prev_us then None else scan_binary s' acc true (nread + 1)
  | _ => if prev_us then None else Some (acc, nread, s)
  end.

Definition int_base2 (s : string) : exn + Z :=
  let s1 := skip_spaces s in
  let '(negative, s2) := skip_sign s1 in
  let s3 := skip_prefix_0b s2 in
  if startswith "_" s3 then inl ValueError
  else
    match scan_binary s3 0 false 0 with
    | None => inl ValueError
    | Some (z, nread, rest) =>
        if nread =? 0 then inl ValueError
        else if is_empty (skip_spaces rest)
             then inr (if negative then - z else z)
             else inl ValueError
    end.

(* ------------------------------------------------------------------ *)
(** ** [decimal.Decimal]

    A finite decimal is a signed coefficient and an exponent; its value is
    [coef * 10 ^ expo].  (Python keeps the sign apart from the digits, so
    that it has a negative zero; the script never makes one.) *)
Record Decimal : Type := mkDecimal { coef : Z; expo : Z }.

(** [Decimal(n)] for an integer [n]: exact at any size. *)
Definition Decimal_of_int (n : Z) : Decimal := mkDecimal n 0.

(** The value of a decimal as a rational. *)
Definition DtoQ (d : Decimal) : Q := inject_Z (coef d) * Qpower (10 # 1) (expo d).

(** The number of decimal digits of [n >= 0], by comparing [n] with the
    successive powers of ten [p = 10^k]. *)
Fixpoint ndigits_aux (fuel : nat) (n p k : Z) : Z :=
  match fuel with
  | O => k
  | S f => if n <? p then k else ndigits_aux f n (p * 10) (k + 1)
  end.

(** [len(str(abs(n)))]: the number of decimal digits, 1 for zero. *)
Definition ndigits (n : Z) : Z :=
  ndigits_aux (Z.to_nat (Z.log2 (Z.abs n))) (Z.abs n) 10 1.

(** [d.adjusted()]: the exponent of the leading digit. *)
Definition adjusted (d : Decimal) : Z := ndigits (coef d) + expo d - 1.

(** Drop the [k] low digits of [m >= 0], rounding half to even. *)
Definition round_half_even (m k : Z) : Z :=
  if k <=? 0 then m
  else
    let q := m / 10 ^ k in
    let r := m mod 10 ^ k in
    let half := 5 * 10 ^ (k - 1) in
    if (half <? r) || ((r =? half) && Z.odd q) then q + 1 else q.

(** [Decimal._fix(context)]: bring a result into the context's precision
    and exponent range.  A result above [Emax] raises [Overflow]; a
    result below the normal range is rounded at [Etiny]. *)
Definition dec_fix (c : context) (d : Decimal) : exn + Decimal :=
  if coef d =? 0 then
    inr (mkDecimal 0 (Z.min (Z.max (expo d) (Etiny c)) Emax))
  else
    let exp_min := ndigits (coef d) + expo d - prec c in
    if Etop c <? exp_min then inl DecimalOverflow
    else
      let exp_min := Z.max exp_min (Etiny c) in
      if expo d <? exp_min then
        let digits := ndigits (coef d) + expo d - exp_min in
        let m := if digits <? 0 then mkDecimal 1 (exp_min - 1)
                 else mkDecimal (Z.abs (coef d)) (expo d) in
        let q := round_half_even (coef m) (exp_min - expo m) in
        let '(q, exp_min) :=
          if prec c <? ndigits q then (q / 10, exp_min + 1) else (q, exp_min) in
        if Etop c <? exp_min then inl DecimalOverflow
        else inr (mkDecimal (Z.sgn (coef d) * q) exp_min)
      else inr d.

(** [a + b]: the exact sum at the smaller exponent, then [_fix]. *)
Definition dec_add (a b : Decimal) : M Decimal :=
  c <- getcontext ;;
  let e := Z.min (expo a) (expo b) in
  lift (dec_fix c (mkDecimal (coef a * 10 ^ (expo a - e) + coef b * 10 ^ (expo b - e)) e)).

(** [-a]: the sign is switched and the result rounded to the context. *)
Definition dec_neg (a : Decimal) : M Decimal :=
  c <- getcontext ;;
  lift (dec_fix c (mkDecimal (- coef a) (expo a))).

(** [abs(a)], rounded to the context. *)
Definition dec_abs (a : Decimal) : M Decimal :=
  c <- getcontext ;;
  lift (dec_fix c (mkDecimal (Z.abs (coef a)) (expo a))).

(** [Decimal(2) ** (-i)] for [i >= 1]: one half to the power [i] is
    [5^i * 10^(-i)], rounded to the context.  (CPython computes the power
    by repeated squaring at a slightly larger precision; the two agree
    whenever [5^i] fits the context's precision, and differ by at most one
    unit in the last place beyond.) *)
Definition dec_pow2_neg (i : Z) : M Decimal :=
  c <- getcontext ;;
  lift (dec_fix c (mkDecimal (5 ^ i) (- i))).

(** [a < b] and [a != 0] compare exact values; they never round. *)
Definition dec_ltb (a b : Decimal) : bool :=
  let e := Z.min (expo a) (expo b) in
  coef a * 10 ^ (expo a - e) <? coef b * 10 ^ (expo b - e).

Definition dec_is_zero (a : Decimal) : bool := coef a =? 0.

(* ------------------------------------------------------------------ *)
(** ** [binary_to_decimal] *)

(** The loop [for i, bit in enumerate(frac_part, 1)]. *)
Fixpoint frac_loop (frac_part : string) (i : Z) (frac_value : Decimal) : M Decimal :=
  match frac_part with
  | EmptyString => ret frac_value
  | String bit rest =>
      frac_value' <- (if chr_eqb bit "1"
                      then p <- dec_pow2_neg i ;; dec_add frac_value p
                      else ret frac_value) ;;
      frac_loop rest (i + 1) frac_value'
  end.

Definition binary_to_decimal (binary_str : string) : M Decimal :=
  set_prec 1000 ;;;
  if is_empty binary_str then ret (Decimal_of_int 0)
  else
    let negative := startswith "-" binary_str in
    let binary_str := if negative then drop 1 binary_str else binary_str in
    let '(int_part, frac_part) :=
      if contains "." binary_str then split_first "." binary_str
      else (binary_str, EmptyString) in
    result <- (if is_empty int_part then ret (Decimal_of_int 0)
               else n <- lift (int_base2 int_part) ;; ret (Decimal_of_int n)) ;;
    result <- (if is_empty frac_part then ret result
               else frac_value <- frac_loop frac_part 1 (Decimal_of_int 0) ;;
                    dec_add result frac_value) ;;
    if negative then dec_neg result else ret result.

(* ------------------------------------------------------------------ *)
(** ** Rendering integers and decimals as text *)

Open Scope string_scope.
Open Scope Z_scope.

Fixpoint replicate (n : nat) (ch : ascii) : string :=
  match n with O => EmptyString | S k => String ch (replicate k ch) end.

(** ["ch" * n] *)
Definition repeat_chr (ch : ascii) (n : Z) : string := replicate (Z.to_nat n) ch.

Definition digit_chr (d : Z) : ascii := ascii_of_nat (48 + Z.to_nat d).

(** The [k] low decimal digits of [n >= 0], most significant first,
    in front of [acc]. *)
Fixpoint digits_string (k : nat) (n : Z) (acc : string) : string :=
  match k with
  | O => acc
  | S k' => digits_string k' (n / 10) (String (digit_chr (n mod 10)) acc)
  end.

(** The digits of [abs(n)], as [Decimal._int] holds them. *)
Definition digits_of (n : Z) : string :=
  digits_string (Z.to_nat (ndigits n)) (Z.abs n) "".

(** [str(n)] for an integer. *)
Definition str_int (n : Z) : string :=
  if n <? 0 then "-" ++ digits_of n else digits_of n.

(** ["%+d" % n] *)
Definition signed_int (n : Z) : string :=
  if n <? 0 then "-" ++ digits_of n else "+" ++ digits_of n.

(** [str(d)] for a decimal: the to-scientific-string conversion.  No
    exponent is written when the exponent is at most zero and the value is
    at least [1e-6] in size; otherwise one digit stands before the point
    and an exponent follows. *)
Definition dec_str (d : Decimal) : string :=
  let sign := if coef d <? 0 then "-" else "" in
  let int_ := digits_of (coef d) in
  let n := ndigits (coef d) in
  let leftdigits := expo d + n in
  let dotplace := if (expo d <=? 0) && (-6 <? leftdigits) then leftdigits else 1 in
  let '(intpart, fracpart) :=
    if dotplace <=? 0 then ("0", "." ++ repeat_chr "0" (- dotplace) ++ int_)
    else if n <=? dotplace then (int_ ++ repeat_chr "0" (dotplace - n), "")
    else (take (Z.to_nat dotplace) int_, "." ++ drop (Z.to_nat dotplace) int_) in
  let exp := if leftdigits =? dotplace then ""
             else "E" ++ signed_int (leftdigits - dotplace) in
  sign ++ intpart ++ fracpart ++ exp.

(** [Decimal._rescale(exp, ROUND_HALF_EVEN)]: the same value at exponent
    [exp], padded with zeros or rounded. *)
Definition dec_rescale (d : Decimal) (exp : Z) : Decimal :=
  if coef d =? 0 then mkDecimal 0 exp
  else if exp <=? expo d then mkDecimal (coef d * 10 ^ (expo d - exp)) exp
  else
    let digits := ndigits (coef d) + expo d - exp in
    let m := if digits <? 0 then mkDecimal 1 (exp - 1)
             else mkDecimal (Z.abs (coef d)) (expo d) in
    mkDecimal (Z.sgn (coef d) * round_half_even (coef m) (exp - expo m)) exp.

(** [Decimal._round(places, ROUND_HALF_EVEN)]: [places] significant
    digits; a second rescale repairs a carry into a new digit. *)
Definition dec_round (d : Decimal) (places : Z) : Decimal :=
  if coef d =? 0 then d
  else
    let ans := dec_rescale d (adjusted d + 1 - places) in
    if adjusted ans =? adjusted d then ans
    else dec_rescale ans (adjusted ans + 1 - places).

(** [format(d, ".{precision}E")] *)
Definition dec_format_E (precision : Z) (d : Decimal) : string :=
  let sign := if coef d <? 0 then "-" else "" in
  let r := dec_round d (precision + 1) in
  let int_ := digits_of (coef r) in
  let n := ndigits (coef r) in
  let leftdigits := expo r + n in
  let dotplace := if coef r =? 0 then 1 - precision else 1 in
  let '(intpart, fracpart) :=
    if dotplace <? 0 then ("0", repeat_chr "0" (- dotplace) ++ int_)
    else if n <? dotplace then (int_ ++ repeat_chr "0" (dotplace - n), "")
    else (take (Z.to_nat dotplace) int_, drop (Z.to_nat dotplace) int_) in
  let intpart := if is_empty intpart then "0" else intpart in
  let fracpart := if is_empty fracpart then "" else "." ++ fracpart in
  sign ++ intpart ++ fracpart ++ "E" ++ signed_int (leftdigits - dotplace).

(* ------------------------------------------------------------------ *)
(** ** State documents: the values [json.loads] returns *)

Inductive json : Type :=
| JNull
| JBool (b : bool)
| JInt (n : Z)
| JFloat (f : float)
| JString (s : string)
| JList (items : list json)
| JDict (entries : list (string * json)).

(** [d[k]] / [k in d] on a dict held as its list of entries.  ([json.loads]
    never returns a dict with a repeated key.) *)
Fixpoint dict_get (entries : list (string * json)) (k : string) : option json :=
  match entries with
  | [] => None
  | (k', v) :: rest => if String.eqb k' k then Some v else dict_get rest k
  end.

(** [bool(v)] *)
Definition truthy (v : json) : bool :=
  match v with
  | JNull => false
  | JBool b => b
  | JInt n => negb (n =? 0)
  | JFloat f => negb (PrimFloat.eqb f 0%float)
  | JString s => negb (is_empty s)
  | JList l => match l with [] => false | _ => true end
  | JDict kv => match kv with [] => false | _ => true end
  end.

(** The value [d.get(k, default)] returns for a dict [d]. *)
Definition get_or (entries : list (string * json)) (k : string) (default : json) : json :=
  match dict_get entries k with Some v => v | None => default end.

(** [d.get(k, default)]; only a dict has the method. *)
Definition get_default (d : json) (k : string) (default : json) : M json :=
  match d with
  | JDict kv => ret (get_or kv k default)
  | _ => raise AttributeError
  end.

(** [v[i]] for a non-negative integer index [i]. *)
Definition subscript (v : json) (i : nat) : M json :=
  match v with
  | JList l =>
      match nth_error l i with Some x => ret x | None => raise IndexError end
  | JString s =>
      match String.get i s with
      | Some ch => ret (JString (String ch ""))
      | None => raise IndexError
      end
  | JDict _ => raise KeyError
  | _ => raise TypeError
  end.

(** ["." in v] *)
Definition contains_dot (v : json) : exn + bool :=
  match v with
  | JString s => inr (contains "." s)
  | JList l =>
      inr (existsb (fun x => match x with JString s => String.eqb s "." | _ => false end) l)
  | JDict kv => inr (existsb (fun p => String.eqb (fst p) ".") kv)
  | _ => inl TypeError
  end.

(** [binary_to_decimal] called with a value that need not be a string:
    a falsy value takes the early return, any other non-string has no
    [startswith]. *)
Definition binary_to_decimal_any (v : json) : M Decimal :=
  match v with
  | JString s => binary_to_decimal s
  | _ => set_prec 1000 ;;;
         if truthy v then raise AttributeError else ret (Decimal_of_int 0)
  end.

(** [int(n * f)] for an integer [n] (below [2^63], as every length is)
    and a float [f]: the product in binary64, truncated toward zero. *)
Definition int_of_float (f : float) : exn + Z :=
  match Prim2SF f with
  | S754_zero _ => inr 0
  | S754_finite s m e =>
      let a := if 0 <=? e then Z.pos m * 2 ^ e else Z.pos m / 2 ^ (- e) in
      inr (if s then - a else a)
  | S754_infinity _ => inl OverflowError
  | S754_nan => inl ValueError
  end.

Definition float_of_int (n : Z) : float := PrimFloat.of_uint63 (Uint63.of_Z n).

Definition log10_2 : float := Eval cbv in 0x1.34395810624ddp-2%float.

(** [int(leading_zeros * 0.301)] *)
Definition zoom_depth_of (leading_zeros : Z) : exn + Z :=
  int_of_float (PrimFloat.mul (float_of_int leading_zeros) log10_2).

Definition nl : string := String (ascii_of_nat 10) "".

(** ["\n".join(lines)] *)
Fixpoint join_lines (lines : list string) : string :=
  match lines with
  | [] => ""
  | [l] => l
  | l :: rest => l ++ nl ++ join_lines rest
  end.

Section Presentation.

(** What the script leaves to the runtime and is not modelled here:
    [str] of a float, a list or a dict, and [json.dumps(_, indent=2)]. *)
Variable str_other : json -> string.
Variable json_dumps : json -> string.

(** [str(v)], which is what an f-string field shows. *)
Definition py_str (v : json) : string :=
  match v with
  | JNull => "None"
  | JBool true => "True"
  | JBool false => "False"
  | JInt n => str_int n
  | JString s => s
  | _ => str_other v
  end.

(** Lines 93-95 of [format_bigfloat]: the choice between the two
    renderings of a converted value. *)
Definition format_decimal (decimal_value : Decimal) : M string :=
  a <- dec_abs decimal_value ;;
  if dec_ltb a (mkDecimal 1 (-10)) && negb (dec_is_zero decimal_value)
  then ret (dec_format_E 50 decimal_value)
  else ret (take 80 (dec_str decimal_value)).

Definition format_bigfloat (bf : json) : M string :=
  match bf with
  | JDict kv =>
      match dict_get kv "value" with
      | Some binary_value =>
          decimal_value <- binary_to_decimal_any binary_value ;;
          format_decimal decimal_value
      | None => ret (py_str bf)
      end
  | _ => ret (py_str bf)
  end.

(** The body of the [try] block of [format_viewport]. *)
Definition zoom_depth_lines (viewport : json) : M (list string) :=
  width_data <- get_default viewport "width" (JDict []) ;;
  match width_data with
  | JDict kv =>
      match dict_get kv "value" with
      | Some binary_value =>
          has_dot <- lift (contains_dot binary_value) ;;
          if has_dot then
            match binary_value with
            | JString s =>
                let frac_part := fst (split_first "." (snd (split_first "." s))) in
                let leading_zeros := len frac_part - len (lstrip "0" frac_part) in
                zoom_depth <- lift (zoom_depth_of leading_zeros) ;;
                precision_bits <- get_default width_data "precision_bits" (JString "N/A") ;;
                ret [ "  Zoom Depth: ~10^" ++ str_int zoom_depth
                        ++ " (2^" ++ str_int leading_zeros ++ ")";
                      "  Precision:  " ++ py_str precision_bits ++ " bits" ]
            | _ => raise AttributeError
            end
          else ret []
      | None => ret []
      end
  | _ => ret []
  end.

(** [try: ... except (ValueError, IndexError, TypeError): pass] *)
Definition zoom_depth_block (viewport : json) : M (list string) :=
  fun c =>
    match zoom_depth_lines viewport c with
    | (inl e, c') =>
        if is_ValueError e || exn_eqb e IndexError || exn_eqb e TypeError
        then (inr [], c') else (inl e, c')
    | (inr ls, c') => (inr ls, c')
    end.

Definition rule : string := replicate 60 "=".

Definition format_viewport_lines (state : json) (show_raw : bool) : M (list string) :=
  viewport <- get_default state "viewport" (JDict []) ;;
  center <- get_default viewport "center" (JList [JNull; JNull]) ;;
  c0 <- subscript center 0 ;;
  cx <- format_bigfloat c0 ;;
  c1 <- subscript center 1 ;;
  cy <- format_bigfloat c1 ;;
  w <- get_default viewport "width" JNull ;;
  width <- format_bigfloat w ;;
  h <- get_default viewport "height" JNull ;;
  height <- format_bigfloat h ;;
  zoom <- zoom_depth_block viewport ;;
  config_id <- get_default state "config_id" (JString "unknown") ;;
  palette <- get_default state "palette_name" (JString "unknown") ;;
  version <- get_default state "version" (JString "unknown") ;;
  render <- get_default state "render_settings" (JDict []) ;;
  render_lines <-
    (if truthy render then
       cycle_count <- get_default render "cycle_count" (JString "N/A") ;;
       use_gpu <- get_default render "use_gpu" (JString "N/A") ;;
       xray <- get_default render "xray_enabled" (JString "N/A") ;;
       ret [ nl ++ "RENDER SETTINGS:";
             "  Cycle Count:  " ++ py_str cycle_count;
             "  Use GPU:      " ++ py_str use_gpu;
             "  X-Ray:        " ++ py_str xray ]
     else ret []) ;;
  ret (List.app
         [ rule; "FRACTALWONDER STATE"; rule;
           nl ++ "VIEWPORT:";
           "  Center X:  " ++ cx;
           "  Center Y:  " ++ cy;
           "  Width:     " ++ width;
           "  Height:    " ++ height ]
      (List.app zoom
      (List.app
         [ nl ++ "CONFIG:";
           "  Config ID:    " ++ py_str config_id;
           "  Palette:      " ++ py_str palette;
           "  Version:      " ++ py_str version ]
      (List.app render_lines
         (if show_raw
          then [ nl ++ rule; "RAW JSON:"; rule; json_dumps state ]
          else []))))).

Definition format_viewport (state : json) (show_raw : bool) : M string :=
  lines <- format_viewport_lines state show_raw ;;
  ret (join_lines lines).

End Presentation.

(* ------------------------------------------------------------------ *)
(** ** [base64.urlsafe_b64decode]

    Bytes are integers in [0, 256).  The decoder is
    [binascii.a2b_base64] in its default, non-strict mode, after the
    URL-safe alphabet has been translated to the standard one: characters
    outside the alphabet are skipped, and padding is looked at only where
    a group of four is incomplete. *)

Definition code (ch : ascii) : Z := Z.of_nat (nat_of_ascii ch).

(** [table_a2b_base64]: the 6-bit value of an alphabet character, 64 for
    any other. *)
Definition table_a2b_base64 (ch : ascii) : Z :=
  let n := code ch in
  if (65 <=? n) && (n <=? 90) then n - 65
  else if (97 <=? n) && (n <=? 122) then n - 71
  else if (48 <=? n) && (n <=? 57) then n + 4
  else if n =? 43 then 62
  else if n =? 47 then 63
  else 64.

(** [s.translate(_urlsafe_decode_translation)]: [-] to [+], [_] to [/]. *)
Fixpoint translate_urlsafe (s : string) : string :=
  match s with
  | EmptyString => EmptyString
  | String ch rest =>
      String (if chr_eqb ch "-" then "+"%char
              else if chr_eqb ch "_" then "/"%char else ch)
             (translate_urlsafe rest)
  end.

Definition emit (b : Z) (r : exn + list Z) : exn + list Z :=
  match r with
  | inr bs => inr (b :: bs)
  | inl e => inl e
  end.

(** The loop of [binascii.a2b_base64]: [quad_pos] is the position inside
    the current group of four, [leftchar] the bits not yet written,
    [pads] the padding characters seen since the last data character. *)
Fixpoint a2b_loop (s : string) (quad_pos leftchar pads : Z) : exn + list Z :=
  match s with
  | EmptyString => if quad_pos =? 0 then inr [] else inl BinasciiError
  | String this_ch rest =>
      if chr_eqb this_ch "=" then
        if 2 <=? quad_pos then
          if 4 <=? quad_pos + (pads + 1) then inr []
          else a2b_loop rest quad_pos leftchar (pads + 1)
        else a2b_loop rest quad_pos leftchar pads
      else
        let v := table_a2b_base64 this_ch in
        if 64 <=? v then a2b_loop rest quad_pos leftchar pads
        else if quad_pos =? 0 then a2b_loop rest 1 v 0
        else if quad_pos =? 1 then
          emit (Z.lor (Z.shiftl leftchar 2) (Z.shiftr v 4) mod 256)
               (a2b_loop rest 2 (Z.land v 15) 0)
        else if quad_pos =? 2 then
          emit (Z.lor (Z.shiftl leftchar 4) (Z.shiftr v 2) mod 256)
               (a2b_loop rest 3 (Z.land v 3) 0)
        else
          emit (Z.lor (Z.shiftl leftchar 6) v mod 256)
               (a2b_loop rest 0 0 0)
  end.

Definition a2b_base64 (s : string) : exn + list Z := a2b_loop s 0 0 0.

Fixpoint is_ascii (s : string) : bool :=
  match s with
  | EmptyString => true
  | String ch rest => (code ch <? 128) && is_ascii rest
  end.

(** [base64.urlsafe_b64decode(s)] for a [str] argument: a character
    outside ASCII is a [ValueError]. *)
Definition urlsafe_b64decode (s : string) : exn + list Z :=
  if is_ascii s then a2b_base64 (translate_urlsafe s) else inl ValueError.

(* ------------------------------------------------------------------ *)
(** ** [decode_fractalwonder_url] *)

Definition bindE {A B} (r : exn + A) (k : A -> exn + B) : exn + B :=
  match r with
  | inl e => inl e
  | inr a => k a
  end.

Notation "x <-- r ;; k" := (bindE r (fun x => k))
  (at level 61, r at next level, right associativity) : monad_scope.

(** Lines 40-42: the padding the payload is given before it is decoded. *)
Definition repad (encoded : string) : string :=
  let padding := 4 - len encoded mod 4 in
  if negb (padding =? 4) then encoded ++ repeat_chr "=" padding else encoded.

Section Decoder.

(** The library calls of the decoder that are taken as given:
    [urlparse(u).fragment], [zlib.decompress(data, -zlib.MAX_WBITS)],
    [bytes.decode("utf-8")] and [json.loads]. *)
Variable urlparse_fragment : string -> exn + string.
Variable zlib_decompress : list Z -> exn + list Z.
Variable decode_utf8 : list Z -> exn + string.
Variable json_loads : string -> exn + json.

Definition decode_fractalwonder_url (url_or_hash : string) : exn + json :=
  hash_data <-- (if startswith "http://" url_or_hash || startswith "https://" url_or_hash
                 then urlparse_fragment url_or_hash
                 else inr url_or_hash) ;;
  if negb (startswith "v1:" hash_data) then inl ValueError
  else
    let encoded := drop 3 hash_data in
    let encoded := repad encoded in
    compressed <-- urlsafe_b64decode encoded ;;
    decompressed <-- zlib_decompress compressed ;;
    text <-- decode_utf8 decompressed ;;
    json_loads text.

End Decoder.

(* ------------------------------------------------------------------ *)
(** ** The two components as calls on a shared process state *)



Section Calls.

Variable urlparse_fragment : string -> exn + string.
Variable zlib_decompress : list Z -> exn + list Z.
Variable decode_utf8 : list Z -> exn + string.
Variable json_loads : string -> exn + json.


End Calls.

(* ------------------------------------------------------------------ *)
(** ** What the specification says, in its own words *)

(** A binary-fraction string: an optional leading [-], binary digits, and
    optionally a point followed by binary digits. *)
Fixpoint all_bits (s : string) : bool :=
  match s with
  | EmptyString => true
  | String ch rest => (chr_eqb ch "0" || chr_eqb ch "1") && all_bits rest
  end.

Definition unsigned_part (s : string) : string :=
  if startswith "-" s then drop 1 s else s.

Definition binary_fraction (s : string) : bool :=
  let '(int_part, frac_part) := split_first "." (unsigned_part s) in
  all_bits int_part && all_bits frac_part.

(** The number of binary digits of a binary-fraction string. *)
Definition digit_count (s : string) : Z :=
  let '(int_part, frac_part) := split_first "." (unsigned_part s) in
  len int_part + len frac_part.

(** Base-2 value of a digit string, most significant digit first; a
    character other than [1] counts as a zero digit. *)
Fixpoint bits_value (s : string) (acc : Z) : Z :=
  match s with
  | EmptyString => acc
  | String ch rest => bits_value rest (2 * acc + (if chr_eqb ch "1" then 1 else 0))
  end.

(** The sum of [2^(-i)] over the positions [i], [i + 1], ... that hold
    a [1]. *)
Fixpoint frac_sum (s : string) (i : Z) : Q :=
  match s with
  | EmptyString => 0%Q
  | String ch rest =>
      ((if chr_eqb ch "1" then Qpower (2 # 1) (- i) else 0) + frac_sum rest (i + 1))%Q
  end.

(** The exact value the specification gives a binary-fraction string:
    sign times (integer part in base 2, empty meaning zero, plus the
    fractional sum). *)
Definition bf_value (s : string) : Q :=
  let '(int_part, frac_part) := split_first "." (unsigned_part s) in
  let v := (inject_Z (bits_value int_part 0) + frac_sum frac_part 1)%Q in
  if startswith "-" s then (- v)%Q else v.

(** Modelled from the spec: the payload encoding of the external encoder,
    "standard unpadded URL-safe base64" (RFC 4648, section 5, without the
    padding characters). *)
Definition b64_chr (v : Z) : ascii :=
  if v <? 26 then ascii_of_nat (Z.to_nat (v + 65))
  else if v <? 52 then ascii_of_nat (Z.to_nat (v + 71))
  else if v <? 62 then ascii_of_nat (Z.to_nat (v - 4))
  else if v =? 62 then "-"%char
  else "_"%char.

Fixpoint urlsafe_b64encode_nopad (bs : list Z) : string :=
  match bs with
  | [] => ""
  | [a] => String (b64_chr (a / 4)) (String (b64_chr (a mod 4 * 16)) "")
  | [a; b] =>
      String (b64_chr (a / 4))
        (String (b64_chr (a mod 4 * 16 + b / 16))
           (String (b64_chr (b mod 16 * 4)) ""))
  | a :: b :: c :: rest =>
      String (b64_chr (a / 4))
        (String (b64_chr (a mod 4 * 16 + b / 16))
           (String (b64_chr (b mod 16 * 4 + c / 64))
              (String (b64_chr (c mod 64)) (urlsafe_b64encode_nopad rest))))
  end.

Definition is_byte (b : Z) : Prop := 0 <= b < 256.

(** The characters of the URL-safe base64 alphabet. *)
Definition b64_alphabet (ch : ascii) : bool :=
  table_a2b_base64 (if chr_eqb ch "-" then "+"%char
                    else if chr_eqb ch "_" then "/"%char else ch) <? 64.

Fixpoint all_alphabet (s : string) : bool :=
  match s with
  | EmptyString => true
  | String ch rest => b64_alphabet ch && (code ch <? 128) && all_alphabet rest
  end.

(** A decimal that [_fix] leaves as it is: its digits fit the precision
    and its exponent the range. *)
Definition representable (c : context) (d : Decimal) : Prop :=
  ndigits (coef d) <= prec c /\ Etiny c <= expo d /\ adjusted d <= Emax.

(** The negation of a decimal, exactly. *)
Definition dec_opp (d : Decimal) : Decimal := mkDecimal (- coef d) (expo d).

(** The converter's result as a function of its argument alone: what
    [binary_to_decimal] computes once it has set the precision to 1000. *)
Definition exact_sum (a b : Decimal) : Decimal :=
  let e := Z.min (expo a) (expo b) in
  mkDecimal (coef a * 10 ^ (expo a - e) + coef b * 10 ^ (expo b - e)) e.

Definition convert_result (s : string) : exn + Decimal :=
  let c := mkContext 1000 in
  if is_empty s then inr (Decimal_of_int 0)
  else
    let '(int_part, frac_part) := split_first "." (unsigned_part s) in
    n <-- (if is_empty int_part then inr 0 else int_base2 int_part) ;;
    r <-- (if is_empty frac_part then inr (Decimal_of_int n)
           else fv <-- fst (frac_loop frac_part 1 (Decimal_of_int 0) c) ;;
                dec_fix c (exact_sum (Decimal_of_int n) fv)) ;;
    if startswith "-" s then dec_fix c (dec_opp r) else inr r.






(** The number of [0] characters a string starts with. *)
Fixpoint count_zeros (s : string) : Z :=
  match s with
  | String ch rest => if chr_eqb ch "0" then 1 + count_zeros rest else 0
  | EmptyString => 0
  end.

(** The leading-zero count of the specification: the zeros that follow
    the (first) point immediately. *)
Definition leading_zero_count (s : string) : Z :=
  count_zeros (snd (split_first "." s)).

(** A check of [int(n * 0.301)] against [floor(301 n / 1000)] for the
    [k] integers from [n] on. *)
Fixpoint zoom_check (k : nat) (n : Z) : bool :=
  match k with
  | O => true
  | S k' =>
      match zoom_depth_of n with
      | inr r => (r =? n * 301 / 1000) && zoom_check k' (n + 1)
      | inl _ => false
      end
  end.

(** The two lines of the zoom-depth estimate. *)
Definition zoom_lines (zoom_depth leading_zeros : Z) (precision_bits : string)
  : list string :=
  [ "  Zoom Depth: ~10^" ++ str_int zoom_depth
      ++ " (2^" ++ str_int leading_zeros ++ ")";
    "  Precision:  " ++ precision_bits ++ " bits" ].

(** [isinstance(v, dict)] *)
Definition is_dict (v : json) : bool :=
  match v with JDict _ => true | _ => false end.

(** [d.get(k)]: [None] when the key is missing. *)
Definition get_or_none (entries : list (string * json)) (k : string) : json :=
  get_or entries k JNull.

(** The render-settings section of the report, for the value
    [state.get("render_settings", {})]. *)
Definition render_settings_lines (str_other : json -> string) (render : json)
  : list string :=
  match render with
  | JDict rkv =>
      if truthy render then
        [ nl ++ "RENDER SETTINGS:";
          "  Cycle Count:  " ++ py_str str_other (get_or rkv "cycle_count" (JString "N/A"));
          "  Use GPU:      " ++ py_str str_other (get_or rkv "use_gpu" (JString "N/A"));
          "  X-Ray:        " ++ py_str str_other (get_or rkv "xray_enabled" (JString "N/A")) ]
      else []
  | _ => []
  end.

(** The report for a state with entries [kv], given the four rendered
    viewport fields and the zoom-depth lines. *)
Definition report_lines (str_other json_dumps : json -> string)
    (kv : list (string * json)) (show_raw : bool)
    (cx cy width height : string) (zoom : list string) : list string :=
  List.app
    [ rule; "FRACTALWONDER STATE"; rule;
      nl ++ "VIEWPORT:";
      "  Center X:  " ++ cx;
      "  Center Y:  " ++ cy;
      "  Width:     " ++ width;
      "  Height:    " ++ height ]
  (List.app zoom
  (List.app
    [ nl ++ "CONFIG:";
      "  Config ID:    " ++ py_str str_other (get_or kv "config_id" (JString "unknown"));
      "  Palette:      " ++ py_str str_other (get_or kv "palette_name" (JString "unknown"));
      "  Version:      " ++ py_str str_other (get_or kv "version" (JString "unknown")) ]
  (List.app (render_settings_lines str_other (get_or kv "render_settings" (JDict [])))
    (if show_raw
     then [ nl ++ rule; "RAW JSON:"; rule; json_dumps (JDict kv) ]
     else [])))).

(** A value [format_bigfloat] renders without raising. *)
Definition renders (str_other : json -> string) (bf : json) : Prop :=
  forall c, exists out c', format_bigfloat str_other bf c = (inr out, c').

(** What the report needs of the fields that are present: the viewport
    is a dict; its center is a list of at least two values that render;
    its width and height render; render_settings is a dict or falsy.  A
    missing field stands for the default the code reads. *)
Definition center_ok (str_other : json -> string) (center : json) : Prop :=
  match center with
  | JList (a :: b :: _) => renders str_other a /\ renders str_other b
  | _ => False
  end.

Definition width_ok (str_other : json -> string) (w : json) : Prop :=
  renders str_other w /\
  forall kv s, w = JDict kv -> dict_get kv "value" = Some (JString s) ->
               leading_zero_count s <= 10000.

Definition viewport_ok (str_other : json -> string) (viewport : json) : Prop :=
  match viewport with
  | JDict vkv =>
      center_ok str_other (get_or vkv "center" (JList [JNull; JNull])) /\
      width_ok str_other (get_or vkv "width" JNull) /\
      renders str_other (get_or vkv "height" JNull)
  | _ => False
  end.

Definition render_ok (render : json) : Prop :=
  is_dict render = true \/ truthy render = false.

Definition state_ok (str_other : json -> string) (kv : list (string * json)) : Prop :=
  viewport_ok str_other (get_or kv "viewport" (JDict [])) /\
  render_ok (get_or kv "render_settings" (JDict [])).


(** The integers [0 .. n-1], for checks by enumeration. *)
Definition range (n : nat) : list Z := List.map Z.of_nat (List.seq 0 n).

Definition check2 (P : Z -> Z -> bool) (n m : nat) : bool :=
  forallb (fun a => forallb (P a) (range m)) (range n).

(** The character [a2b_base64] sees for a payload character. *)
Definition translate_chr (ch : ascii) : ascii :=
  if chr_eqb ch "-" then "+"%char else if chr_eqb ch "_" then "/"%char else ch.

(** A payload with the padding of lines 40-42 spelled out. *)
Definition padded (s : string) : string :=
  s ++ repeat_chr "=" ((4 - len s mod 4) mod 4).

(* ------------------------------------------------------------------ *)
(** ** An instance of the library calls

    The decoder takes [urlparse], [zlib.decompress], [bytes.decode] and
    [json.loads] as parameters.  The functions below are one instance of
    them, each the library call restricted to inputs on which it is
    simple to write down; they serve to run the decoder on concrete
    tokens. *)

(** [urlparse(u).fragment] of a URL without brackets: the text after the
    first [#]. *)
Definition url_fragment (u : string) : exn + string :=
  inr (snd (split_first "#" u)).

(** Raw DEFLATE of a stream made of one final stored block (RFC 1951,
    section 3.2.4): the header byte 1, the length and its complement, low
    byte first, then that many bytes.  Other streams are refused. *)
Definition inflate_stored (bs : list Z) : exn + list Z :=
  match bs with
  | 1 :: l0 :: l1 :: n0 :: n1 :: data =>
      if (l0 + n0 =? 255) && (l1 + n1 =? 255)
         && (Z.of_nat (List.length data) =? l0 + 256 * l1)
      then inr data else inl ZlibError
  | _ => inl ZlibError
  end.



Fixpoint ascii_text (bs : list Z) : exn + string :=
  match bs with
  | [] => inr EmptyString
  | b :: rest =>
      if (0 <=? b) && (b <? 128) then
        match ascii_text rest with
        | inr s => inr (String (ascii_of_nat (Z.to_nat b)) s)
        | inl e => inl e
        end
      else inl UnicodeDecodeError
  end.


Definition loads_empty (s : string) : exn + json :=
  if String.eqb s "{}" then inr (JDict []) else inl JSONDecodeError.

(* ------------------------------------------------------------------ *)
(** ** [main]: the command line *)

(** The quotation mark. *)
Definition dq : string := String (ascii_of_nat 34) "".

(** [__doc__]: the docstring of the module, lines 2-13. *)
Definition __doc__ : string :=
  nl ++ "Decode FractalWonder URL hash to viewport coordinates." ++ nl
  ++ nl
  ++ "Usage:" ++ nl
  ++ "    python decode_url.py <url_or_hash>" ++ nl
  ++ "    python decode_url.py " ++ dq
  ++ "http://127.0.0.1:8080/fractalwonder/#v1:7ZvN..." ++ dq ++ nl
  ++ "    python decode_url.py " ++ dq ++ "v1:7ZvN..." ++ dq ++ nl
  ++ nl
  ++ "Options:" ++ nl
  ++ "    --raw   Include raw JSON output" ++ nl
  ++ "    --json  Output only the decoded JSON (machine-readable)" ++ nl.

(** What a run of the script leaves: the texts given to [print] for the
    standard output and for [sys.stderr], in order, and the exit status
    (0 when [main] returns). *)
Record output : Type :=
  mkOutput { stdout : list string; stderr : list string; exit_status : Z }.

(** [x in args] *)
Definition mem (x : string) (args : list string) : bool :=
  existsb (String.eqb x) args.

(** [next((a for a in args if not a.startswith("-")), None)] *)
Fixpoint first_positional (args : list string) : option string :=
  match args with
  | [] => None
  | a :: rest => if startswith "-" a then first_positional rest else Some a
  end.

(** [json.loads] on the texts of the two empty containers. *)
Definition loads_empties (s : string) : exn + json :=
  if String.eqb s "{}" then inr (JDict [])
  else if String.eqb s "[]" then inr (JList [])
  else inl JSONDecodeError.

Section Script.

Variable urlparse_fragment : string -> exn + string.
Variable zlib_decompress : list Z -> exn + list Z.
Variable decode_utf8 : list Z -> exn + string.
Variable json_loads : string -> exn + json.
Variable str_other : json -> string.
Variable json_dumps : json -> string.

(** [str(e)] for the exception [e] a run on the argument [u] ends in: the
    message text, which the exceptions of this model do not carry. *)
Variable str_exn : string -> exn -> string.

(** [main()] on [sys.argv[1:] = args].  [sys.exit(n)] ends the run with
    status [n]; [except Exception] catches every exception of [exn]. *)
Definition main (args : list string) : context -> output * context :=
  fun c =>
    if match args with [] => true | _ => false end || mem "-h" args || mem "--help" args then
      (mkOutput [__doc__] []
         (if mem "-h" args || mem "--help" args then 0 else 1), c)
    else
      let show_raw := mem "--raw" args in
      let json_only := mem "--json" args in
      let url_or_hash := first_positional args in
      match url_or_hash with
      | None => (mkOutput [] ["Error: No URL provided"] 1, c)
      | Some u =>
          if is_empty u then (mkOutput [] ["Error: No URL provided"] 1, c)
          else
            match decode_fractalwonder_url urlparse_fragment zlib_decompress
                    decode_utf8 json_loads u with
            | inl e => (mkOutput [] ["Error decoding URL: " ++ str_exn u e] 1, c)
            | inr state =>
                if json_only then (mkOutput [json_dumps state] [] 0, c)
                else
                  match format_viewport str_other json_dumps state show_raw c with
                  | (inr report, c') => (mkOutput [report] [] 0, c')
                  | (inl e, c') =>
                      (mkOutput [] ["Error decoding URL: " ++ str_exn u e] 1, c')
                  end
            end
      end.

End Script.
(** The result of [binary_to_decimal] on any value, as a function of the
    value alone. *)
Definition convert_any_result (v : json) : exn + Decimal :=
  match v with
  | JString s => convert_result s
  | _ => if truthy v then inl AttributeError else inr (Decimal_of_int 0)
  end.

(** A Precision Number as [format_bigfloat] recognizes it: a dict with a
    [value]. *)
Definition is_precision_number (bf : json) : bool :=
  match bf with
  | JDict kv => match dict_get kv "value" with Some _ => true | None => false end
  | _ => false
  end.


(** [f] applied to the result of a computation. *)
Definition map_result {A B} (f : A -> B) (m : M A) : M B :=
  fun c => match m c with
           | (inr a, c') => (inr (f a), c')
           | (inl e, c') => (inl e, c')
           end.

(** The lines [show_raw] adds to the report. *)
Definition raw_section (json_dumps : json -> string) (state : json) : list string :=
  [ nl ++ rule; "RAW JSON:"; rule; json_dumps state ].

(** A Precision Number in good form: a dict whose [value] is a
    binary-fraction string of at most 1000 binary digits. *)
Definition well_formed_number (v : json) : Prop :=
  exists kv s,
    v = JDict kv /\ dict_get kv "value" = Some (JString s) /\
    binary_fraction s = true /\ digit_count s <= 1000.

(** A State Document in good form: the viewport is an object whose
    center is a list of at least two Precision Numbers in good form and
    whose width and height are Precision Numbers in good form;
    render_settings is missing, falsy or an object. *)
Definition well_formed_document (kv : list (string * json)) : Prop :=
  exists vkv x y more w h,
    dict_get kv "viewport" = Some (JDict vkv) /\
    dict_get vkv "center" = Some (JList (x :: y :: more)) /\
    dict_get vkv "width" = Some w /\ dict_get vkv "height" = Some h /\
    well_formed_number x /\ well_formed_number y /\
    well_formed_number w /\ well_formed_number h /\
    render_ok (get_or kv "render_settings" (JDict [])).

(** A document to run the report on. *)
Definition sample_number (s : string) : json :=
  JDict [("value", JString s); ("precision_bits", JInt 64)].

Definition sample_document : list (string * json) :=
  [ ("viewport",
     JDict [ ("center", JList [sample_number "-0.11"; sample_number "0.001"]);
             ("width", sample_number "0.00001");
             ("height", sample_number "0.00001") ]);
    ("version", JInt 1) ].

(* ================================================================== *)
(** * Properties *)

(** ** Digit counts *)

Lemma ndigits_aux_spec (fuel : nat) : forall n p k,
  0 <= n -> p = 10 ^ k -> 1 <= k -> (k = 1 \/ 10 ^ (k - 1) <= n) ->
  n < p * 2 ^ Z.of_nat fuel ->
  let r := ndigits_aux fuel n p k in
  k <= r /\ n < 10 ^ r /\ (r = 1 \/ 10 ^ (r - 1) <= n).
Proof.
  induction fuel as [|f IH]; intros n p k Hn Hp Hk Hlow Hfuel; cbn [ndigits_aux].
  - cbn in Hfuel. subst p. split; [lia|]. split; [lia|exact Hlow].
  - destruct (Z.ltb_spec n p) as [Hlt|Hge].
    + subst p. split; [lia|]. split; [lia|exact Hlow].
    + assert (H10 : 10 ^ (k + 1) = p * 10).
      { rewrite Z.pow_add_r by lia. subst p. lia. }
      assert (0 < 2 ^ Z.of_nat f) by (apply Z.pow_pos_nonneg; lia).
      assert (0 < p) by (subst p; apply Z.pow_pos_nonneg; lia).
      rewrite Nat2Z.inj_succ, Z.pow_succ_r in Hfuel by lia.
      specialize (IH n (p * 10) (k + 1)).
      cbv zeta in IH.
      destruct IH as (A & B & C).
      * exact Hn.
      * symmetry; exact H10.
      * lia.
      * right. replace (k + 1 - 1) with k by lia. subst p. exact Hge.
      * nia.
      * split; [lia|]. split; [exact B|exact C].
Qed.

Lemma ndigits_spec (n : Z) :
  1 <= ndigits n /\ Z.abs n < 10 ^ ndigits n /\
  (n <> 0 -> 10 ^ (ndigits n - 1) <= Z.abs n).
Proof.
  unfold ndigits.
  pose proof (ndigits_aux_spec (Z.to_nat (Z.log2 (Z.abs n))) (Z.abs n) 10 1) as H.
  cbv zeta in H.
  destruct H as (A & B & C); try lia.
  - rewrite Z2Nat.id by apply Z.log2_nonneg.
    destruct (Z.eq_dec (Z.abs n) 0) as [E|E].
    + rewrite E. cbn. lia.
    + pose proof (Z.log2_spec (Z.abs n)) as L.
      assert (0 < Z.abs n) by lia. specialize (L H).
      rewrite Z.pow_succ_r in L by apply Z.log2_nonneg. lia.
  - repeat split; try lia.
    intros Hn. destruct C as [C|C]; [rewrite C; cbn; lia | exact C].
Qed.

Lemma ndigits_le (n k : Z) : 1 <= k -> Z.abs n < 10 ^ k -> ndigits n <= k.
Proof.
  intros Hk Hn.
  destruct (ndigits_spec n) as (A & B & C).
  destruct (Z.eq_dec n 0) as [E|E].
  - subst n. cbn. lia.
  - specialize (C E).
    destruct (Z_le_gt_dec (ndigits n) k) as [?|Hgt]; [assumption|exfalso].
    assert (10 ^ k <= 10 ^ (ndigits n - 1)) by (apply Z.pow_le_mono_r; lia).
    lia.
Qed.

Lemma ndigits_opp (n : Z) : ndigits (- n) = ndigits n.
Proof. unfold ndigits. now rewrite Z.abs_opp. Qed.

Lemma ndigits_abs (n : Z) : ndigits (Z.abs n) = ndigits n.
Proof. unfold ndigits. now rewrite Z.abs_idemp. Qed.

(** ** Rounding to the context *)

Lemma round_half_even_bounds (m k : Z) :
  0 <= m -> 0 < k ->
  m / 10 ^ k <= round_half_even m k <= m / 10 ^ k + 1.
Proof.
  intros Hm Hk. unfold round_half_even.
  destruct (Z.leb_spec k 0); [lia|].
  destruct (_ || _); lia.
Qed.

Lemma div_pow10_lt (m n k : Z) :
  0 <= m -> 0 <= k <= n -> m < 10 ^ n -> m / 10 ^ k < 10 ^ (n - k).
Proof.
  intros Hm Hk Hlt.
  assert (0 < 10 ^ k) by (apply Z.pow_pos_nonneg; lia).
  apply Z.div_lt_upper_bound; [assumption|].
  rewrite <- Z.pow_add_r by lia. now replace (k + (n - k)) with n by lia.
Qed.

Lemma dec_fix_representable (c : context) (d : Decimal) :
  representable c d -> dec_fix c d = inr d.
Proof.
  destruct d as [cf e]. unfold representable, adjusted, dec_fix, Etop; cbn [coef expo].
  intros (Hd & He & Ha).
  destruct (Z.eqb_spec cf 0) as [->|Hnz].
  - change (ndigits 0) with 1 in *. f_equal. f_equal. lia.
  - destruct (Z.ltb_spec (Emax - prec c + 1) (ndigits cf + e - prec c)); [lia|].
    destruct (Z.ltb_spec e (Z.max (ndigits cf + e - prec c) (Etiny c))); [lia|].
    reflexivity.
Qed.

Lemma dec_fix_ok_representable (c : context) (d d' : Decimal) :
  1 <= prec c -> dec_fix c d = inr d' -> representable c d'.
Proof.
  intros Hp. destruct d as [cf e].
  unfold representable, adjusted, dec_fix, Etop; cbn [coef expo].
  assert (HE : Etiny c <= Emax) by (unfold Etiny, Emin, Emax; lia).
  destruct (Z.eqb_spec cf 0) as [->|Hnz].
  - intros [= <-]. cbn [coef expo]. change (ndigits 0) with 1. lia.
  - destruct (ndigits_spec cf) as (N1 & N2 & N3). specialize (N3 Hnz).
    destruct (Z.ltb_spec (Emax - prec c + 1) (ndigits cf + e - prec c)); [discriminate|].
    set (exp_min := Z.max (ndigits cf + e - prec c) (Etiny c)).
    destruct (Z.ltb_spec e exp_min) as [Hround|Hkeep].
    + set (digits := ndigits cf + e - exp_min).
      assert (Hdig : digits <= prec c) by (unfold digits, exp_min; lia).
      set (m := if digits <? 0 then mkDecimal 1 (exp_min - 1)
                else mkDecimal (Z.abs cf) e).
      set (q := round_half_even (coef m) (exp_min - expo m)).
      assert (Hq : 0 <= q <= 10 ^ prec c).
      { unfold q, m. destruct (Z.ltb_spec digits 0) as [Hneg|Hpos]; cbn [coef expo].
        - replace (exp_min - (exp_min - 1)) with 1 by lia.
          assert (0 < 10 ^ prec c) by (apply Z.pow_pos_nonneg; lia).
          cbv [round_half_even]. cbn. lia.
        - pose proof (round_half_even_bounds (Z.abs cf) (exp_min - e)) as B.
          assert (0 <= Z.abs cf / 10 ^ (exp_min - e)).
          { apply Z.div_pos; [lia|apply Z.pow_pos_nonneg; lia]. }
          assert (Z.abs cf / 10 ^ (exp_min - e) < 10 ^ (ndigits cf - (exp_min - e))).
          { apply div_pow10_lt; unfold digits in *; lia. }
          assert (10 ^ (ndigits cf - (exp_min - e)) <= 10 ^ prec c).
          { apply Z.pow_le_mono_r; unfold digits in *; lia. }
          lia. }
      clearbody q. clear m.
      destruct (Z.ltb_spec (prec c) (ndigits q)) as [Hcarry|Hfit].
      * destruct (Z.ltb_spec (Emax - prec c + 1) (exp_min + 1)); [discriminate|].
        intros [= <-]. cbn [coef expo].
        assert (Hq10 : ndigits (Z.sgn cf * (q / 10)) <= prec c).
        { apply ndigits_le; [lia|].
          assert (0 <= q / 10 < 10 ^ prec c).
          { assert (0 < 10 ^ prec c) by (apply Z.pow_pos_nonneg; lia).
            split; [apply Z.div_pos; lia|].
            apply Z.div_lt_upper_bound; lia. }
          destruct (Z.sgn_spec cf) as [(_ & ->)|[(_ & ->)|(_ & ->)]]; lia. }
        unfold exp_min in *. lia.
      * destruct (Z.ltb_spec (Emax - prec c + 1) exp_min); [discriminate|].
        intros [= <-]. cbn [coef expo].
        assert (Hq10 : ndigits (Z.sgn cf * q) <= prec c).
        { destruct (Z.sgn_spec cf) as [(_ & ->)|[(E0 & ->)|(_ & ->)]].
          - now rewrite Z.mul_1_l.
          - lia.
          - replace (-1 * q) with (- q) by lia. now rewrite ndigits_opp. }
        unfold exp_min in *. lia.
    + intros [= <-]. cbn [coef expo]. unfold exp_min in *. lia.
Qed.

Lemma round_half_even_nonneg (m k : Z) : 0 <= m -> 0 <= round_half_even m k.
Proof.
  intros Hm. unfold round_half_even.
  destruct (k <=? 0); [assumption|].
  assert (0 <= m / 10 ^ k).
  { destruct (Z.le_gt_cases 0 k).
    - apply Z.div_pos; [assumption|apply Z.pow_pos_nonneg; lia].
    - rewrite Z.pow_neg_r by lia. now rewrite Z.div_0_r. }
  destruct (_ || _); lia.
Qed.

Lemma dec_fix_nonneg (c : context) (d d' : Decimal) :
  0 <= coef d -> dec_fix c d = inr d' -> 0 <= coef d'.
Proof.
  destruct d as [cf e]. unfold dec_fix; cbn [coef expo]. intros Hcf.
  destruct (Z.eqb_spec cf 0) as [->|Hnz].
  - intros [= <-]. cbn. lia.
  - destruct (_ <? _); [discriminate|].
    destruct (e <? _).
    + match goal with
      | |- context [round_half_even ?a ?b] =>
          assert (Hq : 0 <= round_half_even a b)
      end.
      { apply round_half_even_nonneg. destruct (_ <? 0); cbn [coef]; lia. }
      match type of Hq with 0 <= ?r => set (q := r) in * end.
      clearbody q.
      assert (0 <= q / 10) by (apply Z.div_pos; lia).
      assert (Hs : Z.sgn cf = 1) by (apply Z.sgn_pos; lia).
      destruct (prec c <? ndigits q); cbv beta iota zeta;
        destruct (_ <? _); try discriminate;
        intros [= <-]; cbn [coef]; rewrite Hs; lia.
    + intros [= <-]. cbn. lia.
Qed.

Lemma dec_fix_opp (c : context) (cf e : Z) :
  dec_fix c (mkDecimal (- cf) e) =
  match dec_fix c (mkDecimal cf e) with
  | inr d => inr (dec_opp d)
  | inl x => inl x
  end.
Proof.
  unfold dec_fix, dec_opp; cbn [coef expo].
  rewrite ndigits_opp, Z.abs_opp, Z.sgn_opp.
  destruct (Z.eqb_spec cf 0) as [->|Hnz].
  - cbn. reflexivity.
  - destruct (Z.eqb_spec (- cf) 0); [lia|].
    destruct (_ <? _); [reflexivity|].
    destruct (e <? _); cbn [coef expo].
    + destruct (prec c <? _); cbv beta iota zeta;
        destruct (_ <? _); try reflexivity;
        cbn [coef expo]; f_equal; f_equal; ring.
    + reflexivity.
Qed.

(** ** Running the decimal operations *)

Lemma bind_run {A B} (m : M A) (k : A -> M B) (c : context) :
  bind m k c = match m c with
               | (inl e, c') => (inl e, c')
               | (inr a, c') => k a c'
               end.
Proof. reflexivity. Qed.

Lemma dec_add_run (a b : Decimal) (c : context) :
  dec_add a b c =
  (dec_fix c (mkDecimal (coef a * 10 ^ (expo a - Z.min (expo a) (expo b))
                         + coef b * 10 ^ (expo b - Z.min (expo a) (expo b)))
                        (Z.min (expo a) (expo b))), c).
Proof. reflexivity. Qed.

Lemma dec_neg_run (a : Decimal) (c : context) :
  dec_neg a c = (dec_fix c (mkDecimal (- coef a) (expo a)), c).
Proof. reflexivity. Qed.

Lemma dec_abs_run (a : Decimal) (c : context) :
  dec_abs a c = (dec_fix c (mkDecimal (Z.abs (coef a)) (expo a)), c).
Proof. reflexivity. Qed.

Lemma dec_pow2_neg_run (i : Z) (c : context) :
  dec_pow2_neg i c = (dec_fix c (mkDecimal (5 ^ i) (- i)), c).
Proof. reflexivity. Qed.

(** ** Strings of binary digits *)

Lemma len_cons (ch : ascii) (s : string) : len (String ch s) = len s + 1.
Proof. unfold len. cbn [String.length]. lia. Qed.

Lemma len_nonneg (s : string) : 0 <= len s.
Proof. unfold len. lia. Qed.

Lemma chr_eqb_eq (a b : ascii) : chr_eqb a b = true <-> a = b.
Proof. apply Ascii.eqb_eq. Qed.

Lemma all_bits_cons (ch : ascii) (s : string) :
  all_bits (String ch s) = true ->
  (ch = "0"%char \/ ch = "1"%char) /\ all_bits s = true.
Proof.
  cbn [all_bits]. intros H. apply andb_true_iff in H as [H1 H2].
  apply orb_true_iff in H1. rewrite !chr_eqb_eq in H1. tauto.
Qed.

Lemma bits_value_split (s : string) : forall acc,
  bits_value s acc = acc * 2 ^ len s + bits_value s 0 /\
  0 <= bits_value s 0 < 2 ^ len s.
Proof.
  induction s as [|ch s IH]; intros acc; cbn [bits_value].
  - change (len "") with 0. cbn. lia.
  - rewrite len_cons, Z.pow_add_r, Z.pow_1_r by (pose proof (len_nonneg s); lia).
    destruct (IH (2 * acc + (if chr_eqb ch "1" then 1 else 0))) as (E1 & B).
    destruct (IH (2 * 0 + (if chr_eqb ch "1" then 1 else 0))) as (E2 & _).
    rewrite E1, E2.
    assert (0 < 2 ^ len s) by (apply Z.pow_pos_nonneg; [lia|apply len_nonneg]).
    destruct (chr_eqb ch "1"); nia.
Qed.

Lemma scan_binary_bits (s : string) : forall acc n,
  all_bits s = true ->
  scan_binary s acc false n = Some (bits_value s acc, n + len s, "").
Proof.
  induction s as [|ch s IH]; intros acc n Hs.
  - cbn. change (len "") with 0. now rewrite Z.add_0_r.
  - apply all_bits_cons in Hs as ([-> | ->] & Hs); cbn [scan_binary bits_value];
      rewrite IH by assumption; rewrite len_cons; cbn [chr_eqb Ascii.eqb Bool.eqb];
      replace (n + (len s + 1)) with (n + 1 + len s) by lia;
      rewrite ?Z.add_0_r; reflexivity.
Qed.

Lemma bits_no_prefix (s : string) :
  all_bits s = true ->
  skip_spaces s = s /\ skip_sign s = (false, s) /\ skip_prefix_0b s = s /\
  startswith "_" s = false.
Proof.
  intros Hs. destruct s as [|ch s]; [now cbn|].
  apply all_bits_cons in Hs as ([-> | ->] & Hs).
  - repeat split; try reflexivity.
    destruct s as [|ch' s']; [reflexivity|].
    apply all_bits_cons in Hs as ([-> | ->] & _); reflexivity.
  - repeat split; reflexivity.
Qed.

Lemma int_base2_bits (s : string) :
  all_bits s = true -> is_empty s = false -> int_base2 s = inr (bits_value s 0).
Proof.
  intros Hs Hne.
  destruct (bits_no_prefix s Hs) as (E1 & E2 & E3 & E4).
  unfold int_base2. rewrite E1, E2, E3, E4, (scan_binary_bits s 0 0 Hs).
  destruct s as [|ch s]; [discriminate|].
  rewrite len_cons. pose proof (len_nonneg s).
  destruct (Z.eqb_spec (0 + (len s + 1)) 0); [lia|reflexivity].
Qed.

(** ** Exact conversion within the working precision *)

Lemma dec_fix_small (c : context) (cf e : Z) :
  1 <= prec c <= 1000000 ->
  Z.abs cf < 10 ^ prec c -> - prec c <= e <= 0 ->
  dec_fix c (mkDecimal cf e) = inr (mkDecimal cf e).
Proof.
  intros Hp Hcf He. apply dec_fix_representable.
  pose proof (ndigits_le cf (prec c) ltac:(lia) Hcf).
  pose proof (ndigits_spec cf).
  unfold representable, adjusted, Etiny, Emin, Emax; cbn [coef expo]. lia.
Qed.

Lemma pow10_split (i : Z) : 0 <= i -> 10 ^ i = 5 ^ i * 2 ^ i.
Proof. intros. now rewrite <- Z.pow_mul_l. Qed.

Lemma scaled_lt (cf F j l : Z) :
  0 <= j -> 0 <= l -> 0 <= F < 2 ^ j -> cf * 2 ^ j = F * 10 ^ l ->
  0 <= cf < 10 ^ l.
Proof.
  intros Hj Hl HF E.
  assert (0 < 2 ^ j) by (apply Z.pow_pos_nonneg; lia).
  assert (0 < 10 ^ l) by (apply Z.pow_pos_nonneg; lia).
  split; nia.
Qed.

(** The loop over the fractional digits: while no more digits have been
    read than the precision holds, the running sum [cf * 10^(-l)] is
    exactly [F / 2^j], where [F] is the base-2 value of the digits read
    so far. *)
Lemma frac_loop_exact (c : context) (fp : string) : forall j l cf F,
  1 <= prec c <= 1000000 ->
  0 <= l <= j -> 0 <= F < 2 ^ j -> cf * 2 ^ j = F * 10 ^ l ->
  j + len fp <= prec c ->
  exists l' cf',
    frac_loop fp (j + 1) (mkDecimal cf (- l)) c
      = (inr (mkDecimal cf' (- l')), c) /\
    0 <= l' <= j + len fp /\
    cf' * 2 ^ (j + len fp) = bits_value fp F * 10 ^ l'.
Proof.
  induction fp as [|ch fp IH]; intros j l cf F Hp Hl HF E Hlen.
  - exists l, cf. change (len "") with 0. rewrite Z.add_0_r. cbn. auto.
  - rewrite len_cons in *. pose proof (len_nonneg fp) as Hfp.
    cbn [frac_loop bits_value].
    assert (H2j : 2 ^ (j + 1) = 2 * 2 ^ j).
    { rewrite Z.pow_add_r, Z.pow_1_r by lia. lia. }
    assert (0 < 2 ^ j) by (apply Z.pow_pos_nonneg; lia).
    destruct (chr_eqb ch "1").
    + rewrite !bind_run, dec_pow2_neg_run.
      assert (H5 : 0 < 5 ^ (j + 1)) by (apply Z.pow_pos_nonneg; lia).
      assert (H10 : 10 ^ (j + 1) = 5 ^ (j + 1) * 2 ^ (j + 1)) by (apply pow10_split; lia).
      assert (Hle : 10 ^ (j + 1) <= 10 ^ prec c) by (apply Z.pow_le_mono_r; lia).
      assert (0 < 2 ^ (j + 1)) by lia.
      rewrite dec_fix_small; [|lia|rewrite Z.abs_eq by lia; nia|lia].
      rewrite dec_add_run. cbn [coef expo].
      replace (Z.min (- l) (- (j + 1))) with (- (j + 1)) by lia.
      replace (- (j + 1) - - (j + 1)) with 0 by lia.
      replace (- l - - (j + 1)) with (j + 1 - l) by lia.
      rewrite Z.pow_0_r, Z.mul_1_r.
      set (cf1 := cf * 10 ^ (j + 1 - l) + 5 ^ (j + 1)).
      assert (E1 : cf1 * 2 ^ (j + 1) = (2 * F + 1) * 10 ^ (j + 1)).
      { unfold cf1.
        assert (10 ^ (j + 1) = 10 ^ (j + 1 - l) * 10 ^ l).
        { rewrite <- Z.pow_add_r by lia. f_equal. lia. }
        nia. }
      assert (B1 : 0 <= cf1 < 10 ^ (j + 1)).
      { apply (scaled_lt cf1 (2 * F + 1) (j + 1) (j + 1)); try lia. }
      rewrite dec_fix_small; [|lia|rewrite Z.abs_eq by lia; lia|lia].
      destruct (IH (j + 1) (j + 1) cf1 (2 * F + 1)) as (l' & cf' & R & Bl & Ev); try lia.
      exists l', cf'. rewrite R.
      replace (j + (len fp + 1)) with (j + 1 + len fp) by lia. auto.
    + rewrite bind_run. cbn [ret].
      destruct (IH (j + 1) l cf (2 * F + 0)) as (l' & cf' & R & Bl & Ev); try lia; try nia.
      exists l', cf'. rewrite R.
      replace (j + (len fp + 1)) with (j + 1 + len fp) by lia.
      split; [reflexivity|]. split; [lia|assumption].
Qed.

(** ** Values as rationals *)

Lemma inject_Z_pow_nonzero (b n : Z) : 0 < b -> 0 <= n -> ~ inject_Z (b ^ n) == 0.
Proof.
  intros Hb Hn E. unfold Qeq in E. cbn [Qnum Qden inject_Z] in E.
  assert (0 < b ^ n) by (apply Z.pow_pos_nonneg; lia). lia.
Qed.

Lemma Qpower_neg_inject (b l : Z) :
  0 <= l -> (Qpower (inject_Z b) (- l) == / inject_Z (b ^ l))%Q.
Proof.
  intros Hl. rewrite Qpower_opp. now rewrite Zpower_Qpower.
Qed.

Lemma DtoQ_scaled (cf l F n : Z) :
  0 <= l -> 0 <= n -> cf * 2 ^ n = F * 10 ^ l ->
  (DtoQ (mkDecimal cf (- l)) == inject_Z F / inject_Z (2 ^ n))%Q.
Proof.
  intros Hl Hn E. unfold DtoQ; cbn [coef expo].
  change (10 # 1) with (inject_Z 10). rewrite Qpower_neg_inject by assumption.
  pose proof (inject_Z_pow_nonzero 10 l ltac:(lia) Hl) as N10.
  pose proof (inject_Z_pow_nonzero 2 n ltac:(lia) Hn) as N2.
  assert (EQ : (inject_Z cf * inject_Z (2 ^ n) == inject_Z F * inject_Z (10 ^ l))%Q).
  { rewrite <- !inject_Z_mult. now rewrite E. }
  setoid_replace (inject_Z cf * / inject_Z (10 ^ l))%Q
    with (inject_Z cf * inject_Z (2 ^ n) / (inject_Z (10 ^ l) * inject_Z (2 ^ n)))%Q
    by (field; split; assumption).
  rewrite EQ. field. split; assumption.
Qed.

Lemma frac_sum_bits (fp : string) : forall i,
  1 <= i ->
  (frac_sum fp i == inject_Z (bits_value fp 0) / inject_Z (2 ^ (i - 1 + len fp)))%Q.
Proof.
  induction fp as [|ch fp IH]; intros i Hi.
  - cbn [frac_sum bits_value]. unfold Qdiv. now rewrite Qmult_0_l.
  - cbn [frac_sum bits_value]. rewrite len_cons. pose proof (len_nonneg fp) as Hn.
    rewrite (IH (i + 1)) by lia.
    destruct (bits_value_split fp (2 * 0 + (if chr_eqb ch "1" then 1 else 0))) as (E & _).
    rewrite E.
    replace (i + 1 - 1 + len fp) with (i + len fp) by lia.
    replace (i - 1 + (len fp + 1)) with (i + len fp) by lia.
    rewrite Z.pow_add_r by lia.
    change (2 # 1) with (inject_Z 2).
    pose proof (inject_Z_pow_nonzero 2 i ltac:(lia) ltac:(lia)) as Ni.
    pose proof (inject_Z_pow_nonzero 2 (len fp) ltac:(lia) Hn) as Nn.
    rewrite !inject_Z_plus, !inject_Z_mult.
    destruct (chr_eqb ch "1"); cbn [Z.mul Z.add];
      rewrite ?Qpower_neg_inject by lia; field; split; assumption.
Qed.

Lemma split_first_nodot (ch : ascii) (s : string) :
  contains ch s = false -> split_first ch s = (s, "").
Proof.
  induction s as [|a s IH]; [reflexivity|].
  cbn [contains split_first]. intros H. apply orb_false_iff in H as [H1 H2].
  rewrite H1, (IH H2). reflexivity.
Qed.

Lemma split_first_dot (s : string) :
  (if contains "." s then split_first "." s else (s, "")) = split_first "." s.
Proof.
  destruct (contains "." s) eqn:E; [reflexivity|].
  symmetry. now apply split_first_nodot.
Qed.

Lemma pow2_le_pow10 (n : Z) : 0 <= n -> 2 ^ n <= 10 ^ n.
Proof. intros. apply Z.pow_le_mono_l. lia. Qed.

(** The converter on a binary-fraction string of at most 1000 digits:
    it returns, the result fits the working precision, and its value is
    the exact one. *)
Lemma convert_exact (s : string) (c : context) :
  binary_fraction s = true -> digit_count s <= 1000 ->
  exists d,
    binary_to_decimal s c = (inr d, mkContext 1000) /\
    representable (mkContext 1000) d /\
    (DtoQ d == bf_value s)%Q.
Proof.
  unfold binary_fraction, digit_count, bf_value, binary_to_decimal.
  rewrite bind_run. cbn [set_prec].
  set (c1 := mkContext 1000).
  assert (Hp : prec c1 = 1000) by reflexivity. clearbody c1.
  destruct s as [|ch0 s0] eqn:Es.
  - intros _ _. exists (Decimal_of_int 0). split; [reflexivity|]. split.
    + unfold representable, adjusted, Etiny, Emin, Emax.
      cbn [coef expo Decimal_of_int]. change (ndigits 0) with 1. lia.
    + reflexivity.
  - rewrite <- Es. replace (is_empty s) with false by (subst s; reflexivity).
    fold (unsigned_part s). rewrite split_first_dot.
    destruct (split_first "." (unsigned_part s)) as [ip fp].
    intros Hbits Hcount. apply andb_true_iff in Hbits as [Hip Hfp].
    pose proof (len_nonneg ip) as Lip. pose proof (len_nonneg fp) as Lfp.
    destruct (bits_value_split ip 0) as (_ & BI).
    set (I := bits_value ip 0) in *.
    assert (HI : (if is_empty ip then ret (Decimal_of_int 0)
                  else n <- lift (int_base2 ip) ;; ret (Decimal_of_int n)) c1
                 = (inr (Decimal_of_int I), c1)).
    { destruct (is_empty ip) eqn:Eip.
      - destruct ip; [|discriminate]. reflexivity.
      - rewrite bind_run. unfold lift. rewrite int_base2_bits by assumption. reflexivity. }
    rewrite bind_run, HI. clear HI.
    assert (P10 : 2 ^ len ip <= 10 ^ len ip) by (apply pow2_le_pow10; lia).
    assert (Hfrac : exists cf l,
      (if is_empty fp then ret (Decimal_of_int I)
       else frac_value <- frac_loop fp 1 (Decimal_of_int 0) ;;
            dec_add (Decimal_of_int I) frac_value) c1
        = (inr (mkDecimal cf (- l)), c1) /\
      0 <= l <= len fp /\ 0 <= cf < 10 ^ (len ip + l) /\
      (DtoQ (mkDecimal cf (- l)) == inject_Z I + frac_sum fp 1)%Q).
    { destruct (is_empty fp) eqn:Efp.
      - destruct fp; [|discriminate]. exists I, 0. change (len "") with 0.
        rewrite Z.add_0_r. split; [reflexivity|]. split; [lia|]. split; [lia|].
        unfold DtoQ. cbn [coef expo frac_sum Z.opp Qpower]. ring.
      - destruct (frac_loop_exact c1 fp 0 0 0 0) as (l' & cf' & R & Bl & Ev);
          try (cbn; lia).
        rewrite Z.add_0_l in *.
        pose proof (bits_value_split fp 0) as (_ & BF).
        pose proof (scaled_lt cf' (bits_value fp 0) (len fp) l' Lfp ltac:(lia) BF Ev) as Bcf.
        exists (I * 10 ^ l' + cf'), l'.
        rewrite bind_run. change (Decimal_of_int 0) with (mkDecimal 0 (- 0)).
        change (0 + 1) with 1 in R. rewrite R.
        rewrite dec_add_run. cbn [coef expo Decimal_of_int].
        replace (Z.min 0 (- l')) with (- l') by lia.
        replace (0 - - l') with l' by lia. replace (- l' - - l') with 0 by lia.
        rewrite Z.pow_0_r, Z.mul_1_r.
        assert (0 < 10 ^ l') by (apply Z.pow_pos_nonneg; lia).
        assert (Bsum : 0 <= I * 10 ^ l' + cf' < 10 ^ (len ip + l')).
        { rewrite Z.pow_add_r by lia. nia. }
        assert (10 ^ (len ip + l') <= 10 ^ prec c1) by (apply Z.pow_le_mono_r; lia).
        rewrite dec_fix_small; [|lia|rewrite Z.abs_eq by lia; lia|lia].
        split; [reflexivity|]. split; [lia|]. split; [exact Bsum|].
        rewrite (frac_sum_bits fp 1) by lia.
        replace (1 - 1 + len fp) with (len fp) by lia.
        rewrite <- (DtoQ_scaled cf' l' (bits_value fp 0) (len fp)) by (assumption || lia).
        unfold DtoQ; cbn [coef expo].
        change (10 # 1) with (inject_Z 10). rewrite Qpower_neg_inject by lia.
        pose proof (inject_Z_pow_nonzero 10 l' ltac:(lia) ltac:(lia)).
        rewrite inject_Z_plus, inject_Z_mult. field. assumption. }
    destruct Hfrac as (cf & l & R & Bl & Bcf & V).
    rewrite bind_run, R.
    assert (10 ^ (len ip + l) <= 10 ^ prec c1) by (apply Z.pow_le_mono_r; lia).
    destruct (startswith "-" s).
    + rewrite dec_neg_run. cbn [coef expo].
      rewrite dec_fix_small; [|lia|rewrite Z.abs_opp, Z.abs_eq by lia; lia|lia].
      exists (mkDecimal (- cf) (- l)). split; [reflexivity|]. split.
      * eapply dec_fix_ok_representable; [lia|].
        apply dec_fix_small; [lia|rewrite Z.abs_opp, Z.abs_eq by lia; lia|lia].
      * rewrite <- V. unfold DtoQ; cbn [coef expo]. rewrite inject_Z_opp. ring.
    + exists (mkDecimal cf (- l)). split; [reflexivity|]. split; [|exact V].
      eapply dec_fix_ok_representable; [lia|].
      apply dec_fix_small; [lia|rewrite Z.abs_eq by lia; lia|lia].
Qed.

(** ** The converter as a function of its argument *)

Lemma frac_loop_ctx (fp : string) : forall i fv c,
  snd (frac_loop fp i fv c) = c.
Proof.
  induction fp as [|ch fp IH]; intros i fv c; [reflexivity|].
  cbn [frac_loop]. rewrite bind_run.
  destruct (chr_eqb ch "1").
  - rewrite bind_run, dec_pow2_neg_run.
    destruct (dec_fix c (mkDecimal (5 ^ i) (- i))) as [e|p]; [reflexivity|].
    rewrite dec_add_run.
    destruct (dec_fix c (mkDecimal (coef fv * _ + _) _)) as [e|fv']; [reflexivity|].
    apply IH.
  - cbn [ret]. apply IH.
Qed.

Lemma frac_loop_run (fp : string) (i : Z) (fv : Decimal) (c : context) :
  frac_loop fp i fv c = (fst (frac_loop fp i fv c), c).
Proof.
  rewrite <- (frac_loop_ctx fp i fv c) at 3. now destruct (frac_loop fp i fv c).
Qed.

Lemma binary_to_decimal_run (s : string) (c : context) :
  binary_to_decimal s c = (convert_result s, mkContext 1000).
Proof.
  unfold binary_to_decimal, convert_result. rewrite bind_run. cbn [set_prec].
  destruct (is_empty s); [reflexivity|].
  fold (unsigned_part s). rewrite split_first_dot.
  destruct (split_first "." (unsigned_part s)) as [ip fp].
  rewrite bind_run.
  assert (HI : (if is_empty ip then ret (Decimal_of_int 0)
                else n <- lift (int_base2 ip) ;; ret (Decimal_of_int n)) (mkContext 1000)
               = (match (if is_empty ip then inr 0 else int_base2 ip) with
                  | inl e => inl e | inr n => inr (Decimal_of_int n) end, mkContext 1000)).
  { destruct (is_empty ip); [reflexivity|].
    rewrite bind_run. unfold lift. now destruct (int_base2 ip). }
  rewrite HI. clear HI.
  destruct (if is_empty ip then inr 0 else int_base2 ip) as [e|n]; [reflexivity|].
  cbn [bindE]. rewrite bind_run.
  destruct (is_empty fp).
  - cbn [ret bindE]. destruct (startswith "-" s); [apply dec_neg_run|reflexivity].
  - rewrite bind_run, frac_loop_run.
    destruct (fst (frac_loop fp 1 (Decimal_of_int 0) (mkContext 1000))) as [e|fv];
      cbn [fst bindE]; [reflexivity|].
    rewrite dec_add_run. fold (exact_sum (Decimal_of_int n) fv).
    destruct (dec_fix (mkContext 1000) (exact_sum (Decimal_of_int n) fv)) as [e|r];
      [reflexivity|].
    destruct (startswith "-" s); [apply dec_neg_run|reflexivity].
Qed.

Lemma convert_result_neg (s : string) :
  startswith "-" s = false ->
  convert_result ("-" ++ s) =
  (r <-- convert_result s ;; dec_fix (mkContext 1000) (dec_opp r)).
Proof.
  intros Hs. destruct s as [|ch s]; [reflexivity|].
  unfold convert_result.
  change ("-" ++ String ch s) with (String "-" (String ch s)).
  change (is_empty (String "-" (String ch s))) with false.
  change (is_empty (String ch s)) with false. cbv iota.
  change (unsigned_part (String "-" (String ch s))) with (String ch s).
  assert (Hu : unsigned_part (String ch s) = String ch s)
    by (unfold unsigned_part; now rewrite Hs).
  rewrite Hu, Hs.
  change (startswith "-" (String "-" (String ch s))) with true.
  destruct (split_first "." (String ch s)) as [ip fp].
  destruct (if is_empty ip then inr 0 else int_base2 ip) as [e|n]; [reflexivity|].
  cbn [bindE].
  destruct (if is_empty fp then _ else _) as [e|r]; reflexivity.
Qed.

Lemma representable_int (n : Z) :
  ndigits n <= 1000 -> representable (mkContext 1000) (Decimal_of_int n).
Proof.
  unfold representable, adjusted, Etiny, Emin, Emax. cbn [coef expo prec Decimal_of_int]. lia.
Qed.

(** A result of the converter either fits the working precision or is
    the unrounded integer [Decimal(int(int_part, 2))]. *)
Lemma convert_result_shape (s : string) (d : Decimal) :
  convert_result s = inr d ->
  representable (mkContext 1000) d \/ expo d = 0.
Proof.
  unfold convert_result.
  destruct (is_empty s); [intros [= <-]; now right|].
  destruct (split_first "." (unsigned_part s)) as [ip fp].
  destruct (if is_empty ip then inr 0 else int_base2 ip) as [e|n]; [discriminate|].
  cbn [bindE].
  destruct (if is_empty fp then _ else _) as [e|r] eqn:Er; [discriminate|].
  cbn [bindE].
  destruct (startswith "-" s).
  - intros H. left. eapply dec_fix_ok_representable; [cbn; lia|exact H].
  - intros [= <-]. destruct (is_empty fp).
    + injection Er as <-. now right.
    + destruct (fst _) as [e|fv]; [discriminate|]. cbn [bindE] in Er.
      left. eapply dec_fix_ok_representable; [cbn; lia|exact Er].
Qed.

Lemma frac_loop_nonneg (fp : string) : forall i fv c fv',
  0 <= coef fv -> fst (frac_loop fp i fv c) = inr fv' -> 0 <= coef fv'.
Proof.
  induction fp as [|ch fp IH]; intros i fv c fv' Hfv.
  - cbn. now intros [= <-].
  - cbn [frac_loop]. rewrite bind_run.
    destruct (chr_eqb ch "1").
    + rewrite bind_run, dec_pow2_neg_run.
      destruct (dec_fix c (mkDecimal (5 ^ i) (- i))) as [e|p] eqn:Ep; [discriminate|].
      assert (0 <= coef p).
      { eapply dec_fix_nonneg; [|exact Ep]. cbn [coef]. apply Z.pow_nonneg. lia. }
      rewrite dec_add_run.
      destruct (dec_fix c (mkDecimal (coef fv * _ + _) _)) as [e|fv1] eqn:E1;
        [discriminate|].
      apply IH. eapply dec_fix_nonneg; [|exact E1]. cbn [coef].
      assert (forall k, 0 <= 10 ^ k) by (intros; apply Z.pow_nonneg; lia).
      apply Z.add_nonneg_nonneg; apply Z.mul_nonneg_nonneg; auto.
    + cbn [ret]. now apply IH.
Qed.

Lemma convert_result_nonneg (s : string) (d : Decimal) :
  binary_fraction s = true -> startswith "-" s = false ->
  convert_result s = inr d -> 0 <= coef d.
Proof.
  unfold binary_fraction, convert_result. intros Hb Hs. rewrite Hs.
  destruct (is_empty s); [intros [= <-]; cbn; lia|].
  destruct (split_first "." (unsigned_part s)) as [ip fp].
  apply andb_true_iff in Hb as [Hip _].
  assert (Hn : (if is_empty ip then inr 0 else int_base2 ip) = inr (bits_value ip 0)).
  { destruct (is_empty ip) eqn:E; [now destruct ip|now apply int_base2_bits]. }
  rewrite Hn. cbn [bindE]. destruct (bits_value_split ip 0) as (_ & BI).
  destruct (is_empty fp).
  - cbn [bindE]. intros [= <-]. cbn. lia.
  - destruct (fst _) as [e|fv] eqn:Ef; [discriminate|]. cbn [bindE].
    assert (0 <= coef fv) by (eapply frac_loop_nonneg; [|exact Ef]; cbn; lia).
    destruct (dec_fix _ _) as [e|r] eqn:Er; [discriminate|]. cbn [bindE].
    intros [= <-]. eapply dec_fix_nonneg; [|exact Er].
    unfold exact_sum. cbn [coef expo Decimal_of_int].
    assert (forall k, 0 <= 10 ^ k) by (intros; apply Z.pow_nonneg; lia).
    apply Z.add_nonneg_nonneg; apply Z.mul_nonneg_nonneg; auto; lia.
Qed.

(* ------------------------------------------------------------------ *)
(** ** The converter's value (C1) *)




(* ------------------------------------------------------------------ *)
(** ** Sign symmetry (C2) *)

(** C2, as the specification states it, fails on an integer of more than
    1000 decimal digits: 3322 ones convert to the exact [2^3322 - 1]
    (1001 digits, never rounded), while the negated string converts to
    that value rounded to 1000 digits by the unary minus. *)
Lemma binary_to_decimal_negation_rounds :
  binary_fraction (replicate 3322 "1") = true /\
  startswith "-" (replicate 3322 "1") = false /\
  exists d d',
    fst (binary_to_decimal (replicate 3322 "1") default_context) = inr d /\
    fst (binary_to_decimal ("-" ++ replicate 3322 "1") default_context) = inr d' /\
    ~ (DtoQ d' == - DtoQ d)%Q.
Proof.
  split; [vm_compute; reflexivity|]. split; [vm_compute; reflexivity|].
  eexists. eexists. split; [vm_compute; reflexivity|].
  split; [vm_compute; reflexivity|].
  intros H. apply Qeq_bool_iff in H. vm_compute in H. discriminate H.
Qed.

Lemma DtoQ_opp (d : Decimal) : (DtoQ (dec_opp d) == - DtoQ d)%Q.
Proof. unfold DtoQ, dec_opp; cbn [coef expo]. rewrite inject_Z_opp. ring. Qed.

Lemma DtoQ_nonneg (d : Decimal) : 0 <= coef d -> (0 <= DtoQ d)%Q.
Proof.
  intros H. unfold DtoQ. apply Qmult_le_0_compat.
  - change 0%Q with (inject_Z 0). now rewrite <- Zle_Qle.
  - apply Qpower_0_le. discriminate.
Qed.

(** C2 (amended): for every binary-fraction string [s] without a sign on
    which the converter returns, the result is at least zero, and the
    converter on ["-" + s] returns its exact negation whenever the result
    has at most 1000 significant digits; this is so whenever [s] has at
    most 1000 binary digits or a non-empty fractional part. *)
Theorem binary_to_decimal_sign :
  forall (s : string) (c : context) (d : Decimal),
    binary_fraction s = true -> startswith "-" s = false ->
    fst (binary_to_decimal s c) = inr d ->
    (0 <= DtoQ d)%Q /\
    (DtoQ (dec_opp d) == - DtoQ d)%Q /\
    (ndigits (coef d) <= 1000 ->
       fst (binary_to_decimal ("-" ++ s) c) = inr (dec_opp d)) /\
    (digit_count s <= 1000 \/ is_empty (snd (split_first "." s)) = false ->
       ndigits (coef d) <= 1000).
Proof.
  intros s c d Hb Hs. rewrite !binary_to_decimal_run. cbn [fst]. intros R.
  pose proof (convert_result_nonneg s d Hb Hs R) as Hnn.
  split; [now apply DtoQ_nonneg|]. split; [apply DtoQ_opp|]. split.
  - intros Hd. rewrite (convert_result_neg s Hs), R. cbn [bindE].
    unfold dec_opp at 1. rewrite dec_fix_opp.
    assert (Hrep : representable (mkContext 1000) d).
    { destruct (convert_result_shape s d R) as [H|H]; [exact H|].
      destruct d as [cf e]. cbn [expo coef] in *. subst e.
      now apply representable_int. }
    destruct d as [cf e]. cbn [coef expo].
    now rewrite (dec_fix_representable _ _ Hrep).
  - intros [Hc|Hf].
    + destruct (convert_exact s c Hb Hc) as (d0 & R0 & (Hd0 & _) & _).
      rewrite binary_to_decimal_run in R0. injection R0 as R0.
      rewrite R in R0. injection R0 as <-. exact Hd0.
    + revert R. unfold convert_result.
      destruct (is_empty s); [intros [= <-]; cbn; lia|].
      assert (Hu : unsigned_part s = s) by (unfold unsigned_part; now rewrite Hs).
      rewrite Hu, Hs.
      destruct (split_first "." s) as [ip fp]. cbn [snd] in Hf. rewrite Hf.
      destruct (if is_empty ip then inr 0 else int_base2 ip) as [e|n]; [discriminate|].
      cbn [bindE].
      destruct (fst _) as [e|fv]; [discriminate|]. cbn [bindE].
      destruct (dec_fix _ _) as [e|r] eqn:Er; [discriminate|]. cbn [bindE].
      intros [= <-].
      apply (dec_fix_ok_representable (mkContext 1000)) in Er; [|cbn; lia].
      apply Er.
Qed.

Lemma binary_to_decimal_sign_witness :
  (0 <= DtoQ (mkDecimal 63125 (-4)))%Q /\
  (DtoQ (dec_opp (mkDecimal 63125 (-4))) == - DtoQ (mkDecimal 63125 (-4)))%Q /\
  (ndigits (coef (mkDecimal 63125 (-4))) <= 1000 ->
     fst (binary_to_decimal ("-" ++ "110.0101") default_context)
       = inr (dec_opp (mkDecimal 63125 (-4)))) /\
  (digit_count "110.0101" <= 1000 \/
   is_empty (snd (split_first "." "110.0101")) = false ->
     ndigits (coef (mkDecimal 63125 (-4))) <= 1000).
Proof.
  apply (binary_to_decimal_sign "110.0101" default_context (mkDecimal 63125 (-4)));
    reflexivity.
Defined.

(* ------------------------------------------------------------------ *)
(** ** Characters the converter accepts (C10) *)



Lemma split_first_app (u fp : string) :
  contains "." u = false -> split_first "." (u ++ "." ++ fp) = (u, fp).
Proof.
  induction u as [|a u IH]; [reflexivity|].
  cbn [contains]. intros H. apply orb_false_iff in H as [H1 H2].
  cbn [append split_first]. rewrite H1.
  change (u ++ String "." fp) with (u ++ "." ++ fp). now rewrite (IH H2).
Qed.



Lemma is_empty_app_dot (ip r : string) : is_empty (ip ++ "." ++ r) = false.
Proof. now destruct ip. Qed.












(* ------------------------------------------------------------------ *)
(** ** State left behind by a call (C8) *)



(* ------------------------------------------------------------------ *)
(** ** Comparing decimals *)









(* ------------------------------------------------------------------ *)
(** ** Rendering a Precision Number (C5) *)






(* ------------------------------------------------------------------ *)
(** ** The zoom-depth estimate (C6) *)

Lemma zoom_check_spec (k : nat) : forall n,
  zoom_check k n = true ->
  forall m, n <= m < n + Z.of_nat k -> zoom_depth_of m = inr (m * 301 / 1000).
Proof.
  induction k as [|k IH]; intros n H m Hm; [lia|].
  cbn [zoom_check] in H.
  destruct (zoom_depth_of n) as [e|r] eqn:E; [discriminate|].
  apply andb_true_iff in H as [H1 H2]. apply Z.eqb_eq in H1.
  destruct (Z.eq_dec m n) as [->|Hne]; [now rewrite E, H1|].
  apply (IH (n + 1) H2). lia.
Qed.

Lemma zoom_check_10000 : zoom_check (Z.to_nat 10001) 0 = true.
Proof. vm_compute. reflexivity. Qed.

(** In binary64, [int(n * 0.301)] is [floor(301 n / 1000)] for every
    count up to 10000. *)
Lemma zoom_depth_of_exact (n : Z) :
  0 <= n <= 10000 -> zoom_depth_of n = inr (n * 301 / 1000).
Proof.
  intros H. apply (zoom_check_spec (Z.to_nat 10001) 0 zoom_check_10000).
  rewrite Z2Nat.id; lia.
Qed.

Lemma lstrip_count (s : string) : len s - len (lstrip "0" s) = count_zeros s.
Proof.
  induction s as [|a s IH]; [reflexivity|].
  cbn [lstrip count_zeros]. destruct (chr_eqb a "0").
  - rewrite len_cons. lia.
  - lia.
Qed.

Lemma count_zeros_split (s : string) :
  count_zeros (fst (split_first "." s)) = count_zeros s.
Proof.
  induction s as [|a s IH]; [reflexivity|].
  cbn [split_first]. destruct (chr_eqb a ".") eqn:E.
  - apply chr_eqb_eq in E. subst a. reflexivity.
  - destruct (split_first "." s) as [l r]. cbn [fst count_zeros] in *.
    now rewrite IH.
Qed.

Lemma count_zeros_nonneg (s : string) : 0 <= count_zeros s.
Proof.
  induction s as [|a s IH]; cbn [count_zeros]; [lia|].
  destruct (chr_eqb a "0"); lia.
Qed.

Lemma code_leading_zeros (s : string) :
  len (fst (split_first "." (snd (split_first "." s))))
  - len (lstrip "0" (fst (split_first "." (snd (split_first "." s)))))
  = leading_zero_count s.
Proof. unfold leading_zero_count. now rewrite lstrip_count, count_zeros_split. Qed.

Lemma zoom_depth_block_run (str_other : json -> string)
      (vp kv : list (string * json)) (v : json) (c : context) :
  dict_get vp "width" = Some (JDict kv) -> dict_get kv "value" = Some v ->
  zoom_depth_block str_other (JDict vp) c =
  match contains_dot v with
  | inl e => if is_ValueError e || exn_eqb e IndexError || exn_eqb e TypeError
             then (inr [], c) else (inl e, c)
  | inr false => (inr [], c)
  | inr true =>
      match v with
      | JString s =>
          match zoom_depth_of (leading_zero_count s) with
          | inr zd =>
              (inr (zoom_lines zd (leading_zero_count s)
                      (py_str str_other (get_or kv "precision_bits" (JString "N/A")))), c)
          | inl e => if is_ValueError e || exn_eqb e IndexError || exn_eqb e TypeError
                     then (inr [], c) else (inl e, c)
          end
      | _ => (inl AttributeError, c)
      end
  end.
Proof.
  intros Hw Hv. unfold zoom_depth_block, zoom_depth_lines.
  cbn [get_default]. unfold get_or at 1. rewrite Hw, bind_run. cbn [ret].
  rewrite Hv, bind_run.
  unfold lift. destruct (contains_dot v) as [e|[|]]; [reflexivity| |reflexivity].
  destruct v; try reflexivity.
  rewrite code_leading_zeros, bind_run.
  destruct (zoom_depth_of (leading_zero_count s)) as [e|zd]; [reflexivity|].
  cbn [get_default]. rewrite bind_run. reflexivity.
Qed.

Lemma zoom_depth_block_skip (str_other : json -> string)
      (vp : list (string * json)) (c : context) :
  (forall kv, dict_get vp "width" = Some (JDict kv) -> dict_get kv "value" = None) ->
  zoom_depth_block str_other (JDict vp) c = (inr [], c).
Proof.
  intros H. unfold zoom_depth_block, zoom_depth_lines. cbn [get_default].
  unfold get_or. rewrite bind_run. cbn [ret].
  destruct (dict_get vp "width") as [w|]; [|reflexivity].
  destruct w; try reflexivity.
  now rewrite (H entries eq_refl).
Qed.

(** Once the width has been rendered, the block raises nothing. *)
Lemma zoom_depth_block_total (str_other : json -> string)
      (vp : list (string * json)) (c c1 c2 : context) (line : string) :
  format_bigfloat str_other (get_or_none vp "width") c = (inr line, c1) ->
  (forall kv s, dict_get vp "width" = Some (JDict kv) ->
                dict_get kv "value" = Some (JString s) ->
                leading_zero_count s <= 10000) ->
  exists ls, zoom_depth_block str_other (JDict vp) c2 = (inr ls, c2).
Proof.
  set (so := str_other).
  intros Hfmt Hbound. unfold get_or_none, get_or in Hfmt.
  destruct (dict_get vp "width") as [w|] eqn:Hw;
    [|exists []; apply zoom_depth_block_skip; intros kv H; congruence].
  destruct w as [| | | | |items|kv];
    try (exists []; apply zoom_depth_block_skip; intros kv' H; congruence).
  destruct (dict_get kv "value") as [v|] eqn:Hv;
    [|exists []; apply zoom_depth_block_skip; intros kv' H; congruence].
  rewrite (zoom_depth_block_run so vp kv v c2 Hw Hv).
  cbn [format_bigfloat] in Hfmt. rewrite Hv, bind_run in Hfmt.
  destruct v; cbn [contains_dot];
    try (eexists; reflexivity).
  - destruct (contains "." s); [|eexists; reflexivity].
    pose proof (count_zeros_nonneg (snd (split_first "." s))) as Hnn.
    fold (leading_zero_count s) in Hnn.
    rewrite zoom_depth_of_exact by (specialize (Hbound kv s eq_refl Hv); lia).
    eexists; reflexivity.
  - destruct items as [|x items]; [eexists; reflexivity|].
    cbn in Hfmt. discriminate Hfmt.
  - destruct entries as [|x entries]; [eexists; reflexivity|].
    cbn in Hfmt. discriminate Hfmt.
Qed.



(* ------------------------------------------------------------------ *)
(** ** Missing fields (C7) *)

Ltac run_step H x c E :=
  rewrite bind_run in H;
  match type of H with
  | match ?m with _ => _ end = _ =>
      destruct m as [[?|x] c] eqn:E; [discriminate H|]
  end.

Lemma subscript_run (v : json) (i : nat) (c c' : context) (x : json) :
  subscript v i c = (inr x, c') ->
  c' = c /\ (forall a b, v = JList [a; b] -> nth_error [a; b] i = Some x).
Proof.
  destruct v; cbn [subscript raise]; try discriminate.
  - destruct (String.get i s); cbn; [|discriminate]. intros [= <- <-].
    split; [reflexivity|]. intros; discriminate.
  - destruct (nth_error items i) eqn:E; cbn; [|discriminate]. intros [= <- <-].
    split; [reflexivity|]. intros a b [= ->]. exact E.
Qed.

Lemma format_bigfloat_none (str_other : json -> string) (c c' : context) (out : string) :
  format_bigfloat str_other JNull c = (inr out, c') -> out = "None".
Proof. cbn. now intros [= <- _]. Qed.

Lemma render_lines_run (str_other : json -> string) (r : json) (c c' : context)
      (ls : list string) :
  (if truthy r then
     cycle_count <- get_default r "cycle_count" (JString "N/A") ;;
     use_gpu <- get_default r "use_gpu" (JString "N/A") ;;
     xray <- get_default r "xray_enabled" (JString "N/A") ;;
     ret [ nl ++ "RENDER SETTINGS:";
           "  Cycle Count:  " ++ py_str str_other cycle_count;
           "  Use GPU:      " ++ py_str str_other use_gpu;
           "  X-Ray:        " ++ py_str str_other xray ]
   else ret []) c = (inr ls, c') ->
  ls = render_settings_lines str_other r /\ c' = c.
Proof.
  destruct (truthy r) eqn:Et.
  - destruct r; cbn [get_default]; rewrite bind_run; cbn [raise ret]; try discriminate.
    intros [= <- <-]. unfold render_settings_lines. rewrite Et. auto.
  - cbn [ret]. intros [= <- <-]. split; [|reflexivity].
    unfold render_settings_lines. rewrite Et. now destruct r.
Qed.

(** What a report that was produced consists of. *)
Lemma format_viewport_lines_inv (str_other json_dumps : json -> string)
      (kv : list (string * json)) (show_raw : bool) (c c' : context)
      (lines : list string) :
  format_viewport_lines str_other json_dumps (JDict kv) show_raw c = (inr lines, c') ->
  exists vkv cx cy w h zoom,
    get_or kv "viewport" (JDict []) = JDict vkv /\
    lines = report_lines str_other json_dumps kv show_raw cx cy w h zoom /\
    (dict_get vkv "center" = None -> cx = "None" /\ cy = "None") /\
    (dict_get vkv "width" = None -> w = "None" /\ zoom = []) /\
    (dict_get vkv "height" = None -> h = "None").
Proof.
  intros H. unfold format_viewport_lines in H.
  cbn [get_default] in H. rewrite bind_run in H. cbn [ret] in H.
  destruct (get_or kv "viewport" (JDict [])) as [| | | | | |vkv] eqn:Evp;
    try (rewrite bind_run in H; cbn [get_default raise] in H; discriminate H).
  cbn [get_default] in H. rewrite bind_run in H. cbn [ret] in H.
  run_step H v0 ca E0.
  run_step H cx cb Ecx.
  run_step H v1 cc E1.
  run_step H cy cd Ecy.
  rewrite bind_run in H. cbn [ret] in H.
  run_step H w ce Ew.
  rewrite bind_run in H. cbn [ret] in H.
  run_step H h cf Eh.
  run_step H zoom cg Ez.
  rewrite bind_run in H. cbn [ret] in H.
  rewrite bind_run in H. cbn [ret] in H.
  rewrite bind_run in H. cbn [ret] in H.
  rewrite bind_run in H. cbn [ret] in H.
  run_step H rl ch Er.
  apply render_lines_run in Er as (-> & ->). injection H as <- <-.
  exists vkv, cx, cy, w, h, zoom. split; [reflexivity|]. split; [reflexivity|].
  apply subscript_run in E0 as (-> & N0). apply subscript_run in E1 as (-> & N1).
  split; [|split].
  - intros Hc. unfold get_or in N0, N1. rewrite Hc in N0, N1.
    specialize (N0 _ _ eq_refl). specialize (N1 _ _ eq_refl).
    injection N0 as <-. injection N1 as <-.
    apply format_bigfloat_none in Ecx, Ecy. auto.
  - intros Hw. unfold get_or in Ew. rewrite Hw in Ew.
    apply format_bigfloat_none in Ew. split; [assumption|].
    rewrite zoom_depth_block_skip in Ez by (intros kv' K; congruence).
    now injection Ez as <-.
  - intros Hh. unfold get_or in Eh. rewrite Hh in Eh.
    now apply format_bigfloat_none in Eh.
Qed.




Lemma format_viewport_lines_total (str_other json_dumps : json -> string)
      (kv : list (string * json)) (show_raw : bool) (c : context) :
  state_ok str_other kv ->
  exists lines c',
    format_viewport_lines str_other json_dumps (JDict kv) show_raw c = (inr lines, c').
Proof.
  intros (Hvp & Hr). unfold format_viewport_lines.
  cbn [get_default]. rewrite bind_run. cbn [ret].
  destruct (get_or kv "viewport" (JDict [])) as [| | | | | |vkv]; try contradiction.
  destruct Hvp as (Hc & (Hw & Hwb) & Hh).
  cbn [get_default]. rewrite bind_run. cbn [ret].
  destruct (get_or vkv "center" (JList [JNull; JNull])) as [| | | | |items|];
    try contradiction.
  destruct items as [|a [|b rest]]; try contradiction. destruct Hc as (Ha & Hb).
  rewrite bind_run. cbn [subscript nth_error ret].
  rewrite bind_run. destruct (Ha c) as (cx & ca & Ecx). rewrite Ecx.
  rewrite bind_run. cbn [subscript nth_error ret].
  rewrite bind_run. destruct (Hb ca) as (cy & cb & Ecy). rewrite Ecy.
  rewrite bind_run. cbn [ret].
  rewrite bind_run. destruct (Hw cb) as (w & cc & Ew). rewrite Ew.
  rewrite bind_run. cbn [ret].
  rewrite bind_run. destruct (Hh cc) as (h & cd & Eh). rewrite Eh.
  rewrite bind_run.
  destruct (zoom_depth_block_total str_other vkv cb cc cd w Ew) as (zl & Ez).
  { intros kv' s K. apply Hwb. unfold get_or. now rewrite K. }
  rewrite Ez.
  rewrite bind_run. cbn [ret]. rewrite bind_run. cbn [ret].
  rewrite bind_run. cbn [ret]. rewrite bind_run. cbn [ret].
  rewrite bind_run.
  destruct (truthy (get_or kv "render_settings" (JDict []))) eqn:Et.
  - destruct Hr as [Hd|Hf]; [|congruence].
    destruct (get_or kv "render_settings" (JDict [])); try discriminate.
    cbn [get_default]. rewrite !bind_run. cbn [ret]. eexists; eexists; reflexivity.
  - cbn [ret]. eexists; eexists; reflexivity.
Qed.




(* ------------------------------------------------------------------ *)
(** ** Base64 payloads *)

Lemma range_spec (n : nat) (v : Z) : 0 <= v < Z.of_nat n -> In v (range n).
Proof.
  intros H. unfold range. rewrite <- (Z2Nat.id v) by lia.
  apply in_map, in_seq. lia.
Qed.

Lemma check1_spec (P : Z -> bool) (n : nat) :
  forallb P (range n) = true -> forall v, 0 <= v < Z.of_nat n -> P v = true.
Proof.
  intros H v Hv. rewrite forallb_forall in H. apply H, range_spec, Hv.
Qed.

Lemma check2_spec (P : Z -> Z -> bool) (n m : nat) :
  check2 P n m = true ->
  forall a b, 0 <= a < Z.of_nat n -> 0 <= b < Z.of_nat m -> P a b = true.
Proof.
  intros H a b Ha Hb. unfold check2 in H.
  apply (check1_spec _ m (check1_spec _ n H a Ha) b Hb).
Qed.

(** Each alphabet character decodes to the value it encodes; none is
    the padding character, and all are ASCII. *)
Lemma table_b64_chr (v : Z) :
  0 <= v < 64 ->
  table_a2b_base64 (translate_chr (b64_chr v)) = v /\
  chr_eqb (translate_chr (b64_chr v)) "=" = false /\
  code (b64_chr v) < 128.
Proof.
  intros H.
  assert (C : forallb (fun v =>
                (table_a2b_base64 (translate_chr (b64_chr v)) =? v)
                && negb (chr_eqb (translate_chr (b64_chr v)) "=")
                && (code (b64_chr v) <? 128)) (range 64) = true)
    by (vm_compute; reflexivity).
  pose proof (check1_spec _ 64 C v ltac:(lia)) as K.
  apply andb_true_iff in K as [K K3]. apply andb_true_iff in K as [K1 K2].
  apply Z.eqb_eq in K1. apply negb_true_iff in K2. apply Z.ltb_lt in K3. auto.
Qed.

(** The three bytes of a group of four, in terms of its 6-bit values. *)
Lemma sextet_bytes (s t : Z) :
  0 <= s < 64 -> 0 <= t < 64 ->
  Z.lor (Z.shiftl s 2) (Z.shiftr t 4) mod 256 = s * 4 + t / 16 /\
  Z.lor (Z.shiftl (Z.land s 15) 4) (Z.shiftr t 2) mod 256 = s mod 16 * 16 + t / 4 /\
  Z.lor (Z.shiftl (Z.land s 3) 6) t mod 256 = s mod 4 * 64 + t.
Proof.
  intros Hs Ht.
  assert (C : check2 (fun s t =>
                (Z.lor (Z.shiftl s 2) (Z.shiftr t 4) mod 256 =? s * 4 + t / 16)
                && (Z.lor (Z.shiftl (Z.land s 15) 4) (Z.shiftr t 2) mod 256
                    =? s mod 16 * 16 + t / 4)
                && (Z.lor (Z.shiftl (Z.land s 3) 6) t mod 256 =? s mod 4 * 64 + t))
              64 64 = true)
    by (vm_compute; reflexivity).
  pose proof (check2_spec _ 64 64 C s t ltac:(lia) ltac:(lia)) as K.
  clear C. apply andb_true_iff in K as [K K3]. apply andb_true_iff in K as [K1 K2].
  apply Z.eqb_eq in K1, K2, K3. auto.
Qed.

(** One step of the decoding loop on an alphabet character. *)
Lemma a2b_loop_data (v : Z) (rest : string) (q lc p : Z) :
  0 <= v < 64 ->
  a2b_loop (String (translate_chr (b64_chr v)) rest) q lc p =
  if q =? 0 then a2b_loop rest 1 v 0
  else if q =? 1 then
    emit (Z.lor (Z.shiftl lc 2) (Z.shiftr v 4) mod 256) (a2b_loop rest 2 (Z.land v 15) 0)
  else if q =? 2 then
    emit (Z.lor (Z.shiftl lc 4) (Z.shiftr v 2) mod 256) (a2b_loop rest 3 (Z.land v 3) 0)
  else emit (Z.lor (Z.shiftl lc 6) v mod 256) (a2b_loop rest 0 0 0).
Proof.
  intros Hv. destruct (table_b64_chr v Hv) as (T & E & _).
  cbn [a2b_loop]. rewrite E, T.
  destruct (Z.leb_spec 64 v); [lia|reflexivity].
Qed.

Lemma translate_cons (ch : ascii) (s : string) :
  translate_urlsafe (String ch s) = String (translate_chr ch) (translate_urlsafe s).
Proof. reflexivity. Qed.

Lemma translate_app (s t : string) :
  translate_urlsafe (s ++ t) = translate_urlsafe s ++ translate_urlsafe t.
Proof. induction s as [|a s IH]; [reflexivity|]. cbn. now rewrite IH. Qed.

Lemma translate_pads (k : nat) : translate_urlsafe (replicate k "=") = replicate k "=".
Proof. induction k as [|k IH]; [reflexivity|]. cbn. now rewrite IH. Qed.

Lemma len_app (s t : string) : len (s ++ t) = len s + len t.
Proof.
  unfold len. induction s as [|a s IH]; cbn [append String.length]; lia.
Qed.

Lemma append_empty (s : string) : s ++ "" = s.
Proof. induction s as [|a s IH]; [reflexivity|]. cbn. now rewrite IH. Qed.

Lemma repad_padded (s : string) : repad s = padded s.
Proof.
  unfold repad, padded.
  pose proof (Z.mod_pos_bound (len s) 4 ltac:(lia)) as B.
  destruct (Z.eqb_spec (4 - len s mod 4) 4) as [E|E]; cbn [negb].
  - replace (len s mod 4) with 0 by lia.
    change (repeat_chr "=" ((4 - 0) mod 4)) with "". now rewrite append_empty.
  - rewrite (Z.mod_small (4 - len s mod 4)) by lia. reflexivity.
Qed.

Lemma padded_quad (c1 c2 c3 c4 : ascii) (s : string) :
  padded (String c1 (String c2 (String c3 (String c4 s))))
  = String c1 (String c2 (String c3 (String c4 (padded s)))).
Proof.
  unfold padded. rewrite !len_cons.
  replace (len s + 1 + 1 + 1 + 1) with (len s + 1 * 4) by lia.
  now rewrite Z.mod_add by lia.
Qed.

Lemma list_ind3 {A} (P : list A -> Prop) :
  P [] -> (forall a, P [a]) -> (forall a b, P [a; b]) ->
  (forall a b c r, P r -> P (a :: b :: c :: r)) ->
  forall l, P l.
Proof.
  intros H0 H1 H2 H3.
  fix IH 1.
  intros [|a [|b [|c r]]];
    [exact H0 | exact (H1 a) | exact (H2 a b) | exact (H3 a b c r (IH r))].
Qed.

Lemma byte_sextets (a b c : Z) :
  is_byte a -> is_byte b -> is_byte c ->
  0 <= a / 4 < 64 /\ 0 <= a mod 4 * 16 + b / 16 < 64 /\
  0 <= b mod 16 * 4 + c / 64 < 64 /\ 0 <= c mod 64 < 64 /\
  0 <= a mod 4 * 16 < 64 /\ 0 <= b mod 16 * 4 < 64.
Proof. unfold is_byte. intros. repeat split; Z.div_mod_to_equations; lia. Qed.

Lemma encode_ascii (bs : list Z) :
  Forall is_byte bs -> is_ascii (urlsafe_b64encode_nopad bs) = true.
Proof.
  induction bs as [| a | a b | a b c r IH] using list_ind3; intros H.
  - reflexivity.
  - apply Forall_inv in H.
    destruct (byte_sextets a 0 0 H) as (S1 & _ & _ & _ & S5 & _); try (unfold is_byte; lia).
    cbn [urlsafe_b64encode_nopad is_ascii].
    destruct (table_b64_chr _ S1) as (_ & _ & C1).
    destruct (table_b64_chr _ S5) as (_ & _ & C2).
    apply Z.ltb_lt in C1, C2. now rewrite C1, C2.
  - pose proof (Forall_inv H) as Ha. pose proof (Forall_inv (Forall_inv_tail H)) as Hb.
    destruct (byte_sextets a b 0 Ha Hb) as (S1 & S2 & _ & _ & _ & S6);
      try (unfold is_byte; lia).
    cbn [urlsafe_b64encode_nopad is_ascii].
    destruct (table_b64_chr _ S1) as (_ & _ & C1).
    destruct (table_b64_chr _ S2) as (_ & _ & C2).
    destruct (table_b64_chr _ S6) as (_ & _ & C3).
    apply Z.ltb_lt in C1, C2, C3. now rewrite C1, C2, C3.
  - pose proof (Forall_inv H) as Ha. pose proof (Forall_inv (Forall_inv_tail H)) as Hb.
    pose proof (Forall_inv (Forall_inv_tail (Forall_inv_tail H))) as Hc.
    pose proof (Forall_inv_tail (Forall_inv_tail (Forall_inv_tail H))) as Hr.
    destruct (byte_sextets a b c Ha Hb Hc) as (S1 & S2 & S3 & S4 & _ & _).
    cbn [urlsafe_b64encode_nopad is_ascii].
    destruct (table_b64_chr _ S1) as (_ & _ & C1).
    destruct (table_b64_chr _ S2) as (_ & _ & C2).
    destruct (table_b64_chr _ S3) as (_ & _ & C3).
    destruct (table_b64_chr _ S4) as (_ & _ & C4).
    apply Z.ltb_lt in C1, C2, C3, C4. now rewrite C1, C2, C3, C4, (IH Hr).
Qed.

Lemma is_ascii_padded (s : string) : is_ascii s = true -> is_ascii (padded s) = true.
Proof.
  unfold padded, repeat_chr. generalize (Z.to_nat ((4 - len s mod 4) mod 4)) as k.
  induction s as [|a s IH]; intros k H.
  - cbn [append]. induction k as [|k IHk]; [reflexivity|]. cbn. exact IHk.
  - cbn [is_ascii append] in *. apply andb_true_iff in H as [H1 H2].
    now rewrite H1, (IH k H2).
Qed.

(** Decoding the padded encoding of a byte string gives the bytes
    back. *)
Lemma a2b_encode (bs : list Z) :
  Forall is_byte bs ->
  forall lc p,
    a2b_loop (translate_urlsafe (padded (urlsafe_b64encode_nopad bs))) 0 lc p = inr bs.
Proof.
  induction bs as [| a | a b | a b c r IH] using list_ind3; intros H lc p.
  - reflexivity.
  - apply Forall_inv in H.
    destruct (byte_sextets a 0 0 H) as (S1 & _ & _ & _ & S5 & _); try (unfold is_byte; lia).
    cbn [urlsafe_b64encode_nopad]. unfold padded. rewrite !len_cons.
    change (len "") with 0.
    change (repeat_chr "=" ((4 - (0 + 1 + 1) mod 4) mod 4)) with "==".
    cbn [append]. rewrite !translate_cons.
    rewrite (a2b_loop_data _ _ 0 lc p S1). cbn [Z.eqb].
    rewrite (a2b_loop_data _ _ 1 _ 0 S5). cbn [Z.eqb Pos.eqb].
    destruct (sextet_bytes _ _ S1 S5) as (-> & _ & _).
    cbn. f_equal. f_equal. unfold is_byte in H. Z.div_mod_to_equations. lia.
  - pose proof (Forall_inv H) as Ha. pose proof (Forall_inv (Forall_inv_tail H)) as Hb.
    destruct (byte_sextets a b 0 Ha Hb) as (S1 & S2 & _ & _ & _ & S6);
      try (unfold is_byte; lia).
    cbn [urlsafe_b64encode_nopad]. unfold padded. rewrite !len_cons.
    change (len "") with 0.
    change (repeat_chr "=" ((4 - (0 + 1 + 1 + 1) mod 4) mod 4)) with "=".
    cbn [append]. rewrite !translate_cons.
    rewrite (a2b_loop_data _ _ 0 lc p S1). cbn [Z.eqb].
    rewrite (a2b_loop_data _ _ 1 _ 0 S2). cbn [Z.eqb Pos.eqb].
    rewrite (a2b_loop_data _ _ 2 _ 0 S6). cbn [Z.eqb Pos.eqb].
    destruct (sextet_bytes _ _ S1 S2) as (-> & _ & _).
    destruct (sextet_bytes _ _ S2 S6) as (_ & -> & _).
    cbn. unfold is_byte in *.
    f_equal. f_equal; [|f_equal]; Z.div_mod_to_equations; lia.
  - pose proof (Forall_inv H) as Ha. pose proof (Forall_inv (Forall_inv_tail H)) as Hb.
    pose proof (Forall_inv (Forall_inv_tail (Forall_inv_tail H))) as Hc.
    pose proof (Forall_inv_tail (Forall_inv_tail (Forall_inv_tail H))) as Hr.
    destruct (byte_sextets a b c Ha Hb Hc) as (S1 & S2 & S3 & S4 & _ & _).
    cbn [urlsafe_b64encode_nopad]. rewrite padded_quad, !translate_cons.
    rewrite (a2b_loop_data _ _ 0 lc p S1). cbn [Z.eqb].
    rewrite (a2b_loop_data _ _ 1 _ 0 S2). cbn [Z.eqb Pos.eqb].
    rewrite (a2b_loop_data _ _ 2 _ 0 S3). cbn [Z.eqb Pos.eqb].
    rewrite (a2b_loop_data _ _ 3 _ 0 S4). cbn [Z.eqb Pos.eqb].
    rewrite (IH Hr 0 0). cbn [emit].
    destruct (sextet_bytes _ _ S1 S2) as (-> & _ & _).
    destruct (sextet_bytes _ _ S2 S3) as (_ & -> & _).
    destruct (sextet_bytes _ _ S3 S4) as (_ & _ & ->).
    unfold is_byte in *.
    f_equal. f_equal; [|f_equal; [|f_equal]]; Z.div_mod_to_equations; lia.
Qed.

Lemma b64_roundtrip (bs : list Z) :
  Forall is_byte bs ->
  urlsafe_b64decode (repad (urlsafe_b64encode_nopad bs)) = inr bs.
Proof.
  intros H. unfold urlsafe_b64decode, a2b_base64. rewrite repad_padded.
  rewrite (is_ascii_padded _ (encode_ascii bs H)). now apply a2b_encode.
Qed.

(* ------------------------------------------------------------------ *)
(** ** Payloads the base64 stage refuses *)

Lemma alphabet_chr (ch : ascii) :
  b64_alphabet ch = true ->
  chr_eqb (translate_chr ch) "=" = false /\
  (64 <=? table_a2b_base64 (translate_chr ch)) = false.
Proof.
  unfold b64_alphabet. fold (translate_chr ch). intros H. split.
  - destruct (chr_eqb (translate_chr ch) "=") eqn:E; [|reflexivity].
    apply chr_eqb_eq in E. rewrite E in H. discriminate H.
  - apply Z.ltb_lt in H. apply Z.leb_gt. exact H.
Qed.

Lemma emit_error (b : Z) (e : exn) : emit b (inl e) = inl e.
Proof. reflexivity. Qed.

(** Alphabet characters move the position in the group of four by one
    each; if what follows them fails from the position reached, the whole
    input fails. *)
Lemma a2b_loop_unfinished (s t : string) :
  all_alphabet s = true ->
  forall q lc p, 0 <= q < 4 ->
    (forall lc' p', a2b_loop t ((q + len s) mod 4) lc' p' = inl BinasciiError) ->
    a2b_loop (translate_urlsafe s ++ t) q lc p = inl BinasciiError.
Proof.
  induction s as [|ch s IH]; intros A q lc p Hq H.
  - change (len "") with 0 in H. rewrite Z.add_0_r, Z.mod_small in H by lia.
    apply H.
  - cbn [all_alphabet] in A. apply andb_true_iff in A as [A A3].
    apply andb_true_iff in A as [A1 A2].
    destruct (alphabet_chr ch A1) as [E1 E2].
    rewrite translate_cons. cbn [append a2b_loop]. rewrite E1.
    cbv zeta. rewrite E2. rewrite len_cons in H.
    assert (K : forall q' lc' p', 0 <= q' < 4 -> (q' + len s) mod 4 = (q + (len s + 1)) mod 4 ->
                a2b_loop (translate_urlsafe s ++ t) q' lc' p' = inl BinasciiError).
    { intros q' lc' p' Hq' Em. apply (IH A3 q' lc' p' Hq').
      intros lc2 p2. rewrite Em. apply H. }
    assert (C : q = 0 \/ q = 1 \/ q = 2 \/ q = 3) by lia.
    destruct C as [-> | [-> | [-> | ->]]]; cbn [Z.eqb Pos.eqb];
      rewrite K; try reflexivity; try lia;
      pose proof (len_nonneg s); Z.div_mod_to_equations; lia.
Qed.

Lemma alphabet_is_ascii (s : string) : all_alphabet s = true -> is_ascii s = true.
Proof.
  induction s as [|ch s IH]; [reflexivity|]. cbn [all_alphabet is_ascii]. intros A.
  apply andb_true_iff in A as [A A3]. apply andb_true_iff in A as [A1 A2].
  now rewrite A2, IH.
Qed.

(** A payload of alphabet characters whose length is 1 modulo 4 is
    refused. *)
Lemma b64decode_length_1 (p : string) :
  all_alphabet p = true -> len p mod 4 = 1 ->
  urlsafe_b64decode (repad p) = inl BinasciiError.
Proof.
  intros A L. rewrite repad_padded. unfold urlsafe_b64decode.
  rewrite (is_ascii_padded _ (alphabet_is_ascii p A)).
  unfold padded, a2b_base64. rewrite L.
  change (repeat_chr "=" ((4 - 1) mod 4)) with "===".
  rewrite translate_app. change (translate_urlsafe "===") with "===".
  apply a2b_loop_unfinished; [exact A | lia |].
  rewrite Z.add_0_l, L. intros lc' p'. reflexivity.
Qed.

(** The decoding loop fails in one way only. *)
Lemma a2b_loop_error (s : string) :
  forall q lc p e, a2b_loop s q lc p = inl e -> e = BinasciiError.
Proof.
  induction s as [|ch s IH]; intros q lc p e; cbn [a2b_loop].
  - destruct (q =? 0); congruence.
  - assert (Em : forall b r, emit b r = inl e -> r = inl e).
    { intros b [x|x]; cbn; congruence. }
    destruct (chr_eqb ch "=").
    + destruct (2 <=? q); [destruct (4 <=? q + (p + 1)); [discriminate|]|]; apply IH.
    + cbv zeta. destruct (64 <=? table_a2b_base64 ch); [apply IH|].
      destruct (q =? 0); [apply IH|].
      destruct (q =? 1); [intros H; apply Em in H; revert H; apply IH|].
      destruct (q =? 2); intros H; apply Em in H; revert H; apply IH.
Qed.

Lemma is_ascii_app_pads (s : string) (k : nat) :
  is_ascii (s ++ replicate k "=") = is_ascii s.
Proof.
  induction s as [|a s IH].
  - cbn [append]. induction k as [|k IHk]; [reflexivity|]. cbn. exact IHk.
  - cbn [append is_ascii]. now rewrite IH.
Qed.

(** The two ways in which the base64 stage fails. *)
Lemma b64decode_error (p : string) (e : exn) :
  urlsafe_b64decode (repad p) = inl e ->
  (is_ascii p = false /\ e = ValueError) \/ (is_ascii p = true /\ e = BinasciiError).
Proof.
  rewrite repad_padded. unfold urlsafe_b64decode, padded, repeat_chr.
  rewrite is_ascii_app_pads. destruct (is_ascii p).
  - intros H. right. split; [reflexivity|]. unfold a2b_base64 in H.
    now apply a2b_loop_error in H.
  - intros [= <-]. now left.
Qed.

(* ------------------------------------------------------------------ *)
(** ** The stages of the decoder *)

Section DecoderStages.

Variable urlparse_fragment : string -> exn + string.
Variable zlib_decompress : list Z -> exn + list Z.
Variable decode_utf8 : list Z -> exn + string.
Variable json_loads : string -> exn + json.

(** On a token that carries the marker, the decoder is the composition
    of its four stages on the payload. *)
Lemma decode_token (p : string) :
  decode_fractalwonder_url urlparse_fragment zlib_decompress decode_utf8 json_loads
    ("v1:" ++ p) =
  (compressed <-- urlsafe_b64decode (repad p) ;;
   decompressed <-- zlib_decompress compressed ;;
   text <-- decode_utf8 decompressed ;;
   json_loads text).
Proof. reflexivity. Qed.

Lemma decode_bad_marker (t : string) :
  startswith "http://" t = false -> startswith "https://" t = false ->
  startswith "v1:" t = false ->
  decode_fractalwonder_url urlparse_fragment zlib_decompress decode_utf8 json_loads t
  = inl ValueError.
Proof.
  intros H1 H2 H3. unfold decode_fractalwonder_url.
  rewrite H1, H2. cbn [orb bindE]. now rewrite H3.
Qed.

Lemma decode_url_bad_marker (u h : string) :
  startswith "http://" u || startswith "https://" u = true ->
  urlparse_fragment u = inr h ->
  startswith "v1:" h = false ->
  decode_fractalwonder_url urlparse_fragment zlib_decompress decode_utf8 json_loads u
  = inl ValueError.
Proof.
  intros H1 H2 H3. unfold decode_fractalwonder_url.
  rewrite H1, H2. cbn [bindE]. now rewrite H3.
Qed.

End DecoderStages.

Lemma encode_length (bs : list Z) :
  len (urlsafe_b64encode_nopad bs) mod 4 = 0 \/
  len (urlsafe_b64encode_nopad bs) mod 4 = 2 \/
  len (urlsafe_b64encode_nopad bs) mod 4 = 3.
Proof.
  induction bs as [| a | a b | a b c r IH] using list_ind3.
  - now left.
  - right. now left.
  - right. now right.
  - cbn [urlsafe_b64encode_nopad]. rewrite !len_cons.
    replace (len (urlsafe_b64encode_nopad r) + 1 + 1 + 1 + 1)
      with (len (urlsafe_b64encode_nopad r) + 1 * 4) by lia.
    rewrite Z.mod_add by lia. exact IH.
Qed.

(* ------------------------------------------------------------------ *)
(** ** Claims about the decoder *)

(** C3, as stated, fails on its own example: the payload
    [!!!invalid!!!] is not refused by the base64 stage.  The characters
    outside the alphabet are skipped, the seven letters and one padding
    character that remain decode to five bytes, and whether and how the
    decoder fails on this token is decided by the stages after it. *)
Lemma invalid_payload_passes_base64 :
  urlsafe_b64decode (repad "!!!invalid!!!") = inr [138; 123; 218; 150; 39] /\
  (forall urlparse_fragment zlib_decompress decode_utf8 json_loads,
      decode_fractalwonder_url urlparse_fragment zlib_decompress decode_utf8
        json_loads "v1:!!!invalid!!!"
      = (decompressed <-- zlib_decompress [138; 123; 218; 150; 39] ;;
         text <-- decode_utf8 decompressed ;;
         json_loads text)) /\
  decode_fractalwonder_url url_fragment inflate_stored ascii_text loads_empty
    "v1:!!!invalid!!!" = inl ZlibError.
Proof.
  split; [vm_compute; reflexivity|]. split; [|vm_compute; reflexivity].
  intros up zd du jl. change "v1:!!!invalid!!!" with ("v1:" ++ "!!!invalid!!!").
  rewrite decode_token.
  replace (urlsafe_b64decode (repad "!!!invalid!!!"))
    with (@inr exn (list Z) [138; 123; 218; 150; 39]) by (vm_compute; reflexivity).
  reflexivity.
Qed.

(** C3 (amended): the decoder fails at the first stage that fails, with
    that stage's error unchanged.  A token without the marker [v1:]
    (such as [v2:AAA], or a URL whose fragment lacks it) fails with
    [ValueError].  On a token with the marker, the base64 stage fails in
    two ways only: with [ValueError], the kind of the marker error, when
    the payload has a character outside ASCII, and with [binascii.Error]
    otherwise (such as on [v1:A]); a payload it accepts and on whose
    bytes decompression fails makes the decoder fail with the error of
    the decompression, and likewise for the text decoding and the JSON
    parsing.  The payload [!!!invalid!!!] is accepted by the base64 stage.
    The exception classes of the stages are pairwise distinct, though
    all but the decompression error are instances of [ValueError]. *)
Theorem decoder_failure_stages
    (urlparse_fragment : string -> exn + string)
    (zlib_decompress : list Z -> exn + list Z)
    (decode_utf8 : list Z -> exn + string)
    (json_loads : string -> exn + json) :
  let decode := decode_fractalwonder_url urlparse_fragment zlib_decompress
                  decode_utf8 json_loads in
  (forall t, startswith "http://" t = false -> startswith "https://" t = false ->
             startswith "v1:" t = false -> decode t = inl ValueError) /\
  (forall u h, startswith "http://" u || startswith "https://" u = true ->
               urlparse_fragment u = inr h -> startswith "v1:" h = false ->
               decode u = inl ValueError) /\
  decode "v2:AAA" = inl ValueError /\
  (forall p e, urlsafe_b64decode (repad p) = inl e ->
               decode ("v1:" ++ p) = inl e /\
               ((is_ascii p = false /\ e = ValueError) \/
                (is_ascii p = true /\ e = BinasciiError))) /\
  decode "v1:A" = inl BinasciiError /\
  (forall p bs e, urlsafe_b64decode (repad p) = inr bs ->
                  zlib_decompress bs = inl e ->
                  decode ("v1:" ++ p) = inl e) /\
  (forall p bs raw e, urlsafe_b64decode (repad p) = inr bs ->
                      zlib_decompress bs = inr raw ->
                      decode_utf8 raw = inl e ->
                      decode ("v1:" ++ p) = inl e) /\
  (forall p bs raw text e, urlsafe_b64decode (repad p) = inr bs ->
                           zlib_decompress bs = inr raw ->
                           decode_utf8 raw = inr text ->
                           json_loads text = inl e ->
                           decode ("v1:" ++ p) = inl e) /\
  urlsafe_b64decode (repad "!!!invalid!!!") = inr [138; 123; 218; 150; 39] /\
  NoDup [ValueError; BinasciiError; ZlibError; UnicodeDecodeError; JSONDecodeError] /\
  List.map is_ValueError
    [ValueError; BinasciiError; ZlibError; UnicodeDecodeError; JSONDecodeError]
  = [true; true; false; true; true].
Proof.
  intros decode. subst decode.
  split; [apply decode_bad_marker|].
  split; [apply decode_url_bad_marker|].
  split; [reflexivity|].
  split.
  { intros p e H. split; [|exact (b64decode_error p e H)].
    rewrite decode_token, H. reflexivity. }
  split.
  { change "v1:A" with ("v1:" ++ "A"). rewrite decode_token.
    replace (urlsafe_b64decode (repad "A")) with (@inl exn (list Z) BinasciiError)
      by (vm_compute; reflexivity).
    reflexivity. }
  split.
  { intros p bs e H1 H2. rewrite decode_token, H1. cbn [bindE]. now rewrite H2. }
  split.
  { intros p bs raw e H1 H2 H3. rewrite decode_token, H1. cbn [bindE].
    rewrite H2. cbn [bindE]. now rewrite H3. }
  split.
  { intros p bs raw text e H1 H2 H3 H4. rewrite decode_token, H1. cbn [bindE].
    rewrite H2. cbn [bindE]. rewrite H3. cbn [bindE]. exact H4. }
  split; [vm_compute; reflexivity|].
  split; [|reflexivity].
  repeat constructor; cbn; intuition discriminate.
Qed.

Lemma decoder_failure_stages_witness :
  decode_fractalwonder_url url_fragment inflate_stored ascii_text loads_empty
    ("v1:" ++ "AAAA") = inl ZlibError.
Proof.
  apply (proj1 (proj2 (proj2 (proj2 (proj2 (proj2
           (decoder_failure_stages url_fragment inflate_stored ascii_text
              loads_empty)))))) "AAAA" [0; 0; 0] ZlibError).
  - vm_compute. reflexivity.
  - reflexivity.
Defined.

(** C4, as stated, fails on payloads with characters outside the
    alphabet: [AAAA!] has length 5, which is 1 modulo 4, and is decoded,
    to three zero bytes, not refused. *)
Lemma length_1_mod_4_payload_is_decoded :
  len "AAAA!" mod 4 = 1 /\
  urlsafe_b64decode (repad "AAAA!") = inr [0; 0; 0].
Proof. split; vm_compute; reflexivity. Qed.

(** C4 (amended): the payload is given exactly
    [(4 - length mod 4) mod 4] padding characters; the unpadded URL-safe
    base64 encoding of any byte string has length 0, 2 or 3 modulo 4 and
    decodes, after this padding, to the byte string; and a payload made
    of characters of the URL-safe alphabet only whose length is 1 modulo
    4 fails with [binascii.Error], in the base64 stage and so in the
    decoder. *)
Theorem repadding_by_length :
  (forall p, repad p = p ++ repeat_chr "=" ((4 - len p mod 4) mod 4)) /\
  (forall bs, Forall is_byte bs ->
      (len (urlsafe_b64encode_nopad bs) mod 4 = 0 \/
       len (urlsafe_b64encode_nopad bs) mod 4 = 2 \/
       len (urlsafe_b64encode_nopad bs) mod 4 = 3) /\
      urlsafe_b64decode (repad (urlsafe_b64encode_nopad bs)) = inr bs) /\
  (forall p, all_alphabet p = true -> len p mod 4 = 1 ->
      urlsafe_b64decode (repad p) = inl BinasciiError /\
      forall urlparse_fragment zlib_decompress decode_utf8 json_loads,
        decode_fractalwonder_url urlparse_fragment zlib_decompress decode_utf8
          json_loads ("v1:" ++ p) = inl BinasciiError).
Proof.
  split; [exact repad_padded|]. split.
  - intros bs H. split; [apply encode_length | now apply b64_roundtrip].
  - intros p A L. pose proof (b64decode_length_1 p A L) as E. split; [exact E|].
    intros up zd du jl. rewrite decode_token, E. reflexivity.
Qed.

Lemma repadding_by_length_witness :
  urlsafe_b64decode (repad "AAAAA") = inl BinasciiError /\
  forall urlparse_fragment zlib_decompress decode_utf8 json_loads,
    decode_fractalwonder_url urlparse_fragment zlib_decompress decode_utf8
      json_loads ("v1:" ++ "AAAAA") = inl BinasciiError.
Proof.
  apply (proj2 (proj2 repadding_by_length) "AAAAA"); reflexivity.
Defined.



(* ------------------------------------------------------------------ *)
(** ** More on the converter *)

Lemma all_bits_plain (s : string) :
  all_bits s = true -> contains "." s = false /\ startswith "-" s = false.
Proof.
  induction s as [|ch s IH]; [now split|]. intros H.
  destruct (all_bits_cons ch s H) as ([-> | ->] & Hs); split; try reflexivity;
    cbn [contains]; apply (IH Hs).
Qed.

Lemma all_bits_app (s t : string) :
  all_bits (s ++ t) = all_bits s && all_bits t.
Proof.
  induction s as [|ch s IH]; [reflexivity|]. cbn [append all_bits].
  now rewrite IH, andb_assoc.
Qed.

Lemma all_bits_zeros (k : nat) : all_bits (replicate k "0") = true.
Proof. induction k as [|k IH]; [reflexivity|exact IH]. Qed.

Lemma bits_value_zeros (k : nat) (s : string) :
  bits_value (replicate k "0" ++ s) 0 = bits_value s 0.
Proof. induction k as [|k IH]; [reflexivity|exact IH]. Qed.

(** The integer the converter reads from a part made of binary digits. *)
Lemma int_part_bits (ip : string) :
  all_bits ip = true ->
  (if is_empty ip then inr 0 else int_base2 ip) = inr (bits_value ip 0).
Proof.
  intros H. destruct (is_empty ip) eqn:E; [now destruct ip|now apply int_base2_bits].
Qed.

Lemma unsigned_part_plain (s : string) :
  startswith "-" s = false -> unsigned_part s = s.
Proof. intros H. unfold unsigned_part. now rewrite H. Qed.

Lemma binary_to_decimal_bits (s : string) (c : context) :
  all_bits s = true ->
  binary_to_decimal s c = (inr (Decimal_of_int (bits_value s 0)), mkContext 1000).
Proof.
  intros H. rewrite binary_to_decimal_run. f_equal.
  destruct (all_bits_plain s H) as [Hdot Hsign].
  unfold convert_result. destruct (is_empty s) eqn:E; [now destruct s|].
  rewrite (unsigned_part_plain s Hsign), (split_first_nodot "." s Hdot), Hsign.
  rewrite (int_part_bits s H). reflexivity.
Qed.

(** X1: a string of binary digits with no point converts to the integer
    it denotes in base 2, exactly, whatever its length: an integer
    result is never rounded to the working precision.  The integer is
    at least zero and below 2 to the number of digits. *)
Theorem binary_to_decimal_integer (s : string) (c : context) :
  all_bits s = true ->
  binary_to_decimal s c = (inr (Decimal_of_int (bits_value s 0)), mkContext 1000) /\
  0 <= bits_value s 0 < 2 ^ len s.
Proof.
  intros H. split; [now apply binary_to_decimal_bits|apply (bits_value_split s 0)].
Qed.

Lemma binary_to_decimal_integer_witness :
  binary_to_decimal "101101" default_context
  = (inr (Decimal_of_int (bits_value "101101" 0)), mkContext 1000) /\
  0 <= bits_value "101101" 0 < 2 ^ len "101101".
Proof. apply (binary_to_decimal_integer "101101" default_context). reflexivity. Defined.

Lemma frac_loop_app_zeros (fp : string) (m : nat) : forall i fv c,
  frac_loop (fp ++ replicate m "0") i fv c = frac_loop fp i fv c.
Proof.
  induction fp as [|ch fp IH]; intros i fv c.
  - cbn [append frac_loop]. revert i. induction m as [|m IHm]; intros i; [reflexivity|].
    cbn [replicate frac_loop]. rewrite bind_run.
    change (chr_eqb "0" "1") with false. cbv iota. cbn [ret]. apply IHm.
  - cbn [append frac_loop]. rewrite !bind_run.
    match goal with
    | |- context [match ?m c with _ => _ end] => destruct (m c) as [[e|fv'] c']
    end; [reflexivity|apply IH].
Qed.

Lemma zeros_plain (k : nat) (ip : string) :
  all_bits ip = true -> all_bits (replicate k "0" ++ ip) = true.
Proof. intros H. now rewrite all_bits_app, all_bits_zeros, H. Qed.

Lemma startswith_bits_dot (ip rest : string) :
  all_bits ip = true -> startswith "-" (ip ++ "." ++ rest) = false.
Proof.
  intros H. destruct ip as [|ch ip]; [reflexivity|].
  destruct (all_bits_cons ch ip H) as ([-> | ->] & _); reflexivity.
Qed.

Lemma is_empty_app (s t : string) : is_empty s = false -> is_empty (s ++ t) = false.
Proof. now destruct s. Qed.

Lemma string_app_assoc (s t u : string) : (s ++ t) ++ u = s ++ t ++ u.
Proof. induction s as [|a s IH]; [reflexivity|]. cbn [append]. now rewrite IH. Qed.

Lemma convert_result_padding (ip fp : string) (k m : nat) :
  all_bits ip = true -> is_empty fp = false ->
  convert_result (replicate k "0" ++ ip ++ "." ++ fp ++ replicate m "0")
  = convert_result (ip ++ "." ++ fp).
Proof.
  intros Hip Hfp.
  pose proof (zeros_plain k ip Hip) as Hz.
  rewrite <- (string_app_assoc (replicate k "0") ip).
  unfold convert_result.
  rewrite !is_empty_app_dot.
  rewrite (unsigned_part_plain _ (startswith_bits_dot _ _ Hz)).
  rewrite (unsigned_part_plain _ (startswith_bits_dot _ _ Hip)).
  rewrite (split_first_app _ _ (proj1 (all_bits_plain _ Hz))).
  rewrite (split_first_app _ _ (proj1 (all_bits_plain _ Hip))).
  rewrite (int_part_bits _ Hz), (int_part_bits _ Hip), bits_value_zeros.
  rewrite (is_empty_app fp _ Hfp), Hfp, frac_loop_app_zeros.
  rewrite (startswith_bits_dot _ _ Hz), (startswith_bits_dot _ _ Hip). reflexivity.
Qed.

(** X2: zeros in front of the integer part and zeros behind a non-empty
    fractional part do not change the result of the converter, with or
    without a sign: it is the same decimal, digit for digit. *)
Theorem binary_to_decimal_zero_padding (ip fp : string) (k m : nat) (c : context) :
  all_bits ip = true ->
  (binary_to_decimal (replicate k "0" ++ ip) c = binary_to_decimal ip c) /\
  (is_empty fp = false ->
   binary_to_decimal (replicate k "0" ++ ip ++ "." ++ fp ++ replicate m "0") c
     = binary_to_decimal (ip ++ "." ++ fp) c /\
   binary_to_decimal ("-" ++ replicate k "0" ++ ip ++ "." ++ fp ++ replicate m "0") c
     = binary_to_decimal ("-" ++ ip ++ "." ++ fp) c).
Proof.
  intros Hip. split.
  - rewrite (binary_to_decimal_bits _ c (zeros_plain k ip Hip)).
    rewrite (binary_to_decimal_bits _ c Hip). now rewrite bits_value_zeros.
  - intros Hfp. rewrite !binary_to_decimal_run.
    pose proof (convert_result_padding ip fp k m Hip Hfp) as E. split.
    + now rewrite E.
    + rewrite !convert_result_neg, E; [reflexivity| |].
      * now apply startswith_bits_dot.
      * rewrite <- (string_app_assoc (replicate k "0") ip).
        apply startswith_bits_dot. now apply zeros_plain.
Qed.

Lemma binary_to_decimal_zero_padding_witness :
  binary_to_decimal (replicate 3 "0" ++ "10" ++ "." ++ "01" ++ replicate 2 "0")
    default_context
  = binary_to_decimal ("10" ++ "." ++ "01") default_context.
Proof.
  apply (proj2 (binary_to_decimal_zero_padding "10" "01" 3 2 default_context
                  eq_refl) eq_refl).
Defined.






(** The fractional sum lies in [0, 1). *)
Lemma frac_sum_unit (fp : string) : (0 <= frac_sum fp 1 /\ frac_sum fp 1 < 1)%Q.
Proof.
  rewrite (frac_sum_bits fp 1) by lia.
  replace (1 - 1 + len fp) with (len fp) by lia.
  destruct (bits_value_split fp 0) as (_ & B).
  pose proof (len_nonneg fp) as L.
  assert (P : 0 < 2 ^ len fp) by (apply Z.pow_pos_nonneg; lia).
  assert (PQ : (0 < inject_Z (2 ^ len fp))%Q)
    by (change 0%Q with (inject_Z 0); now rewrite <- Zlt_Qlt).
  split.
  - apply Qle_shift_div_l; [exact PQ|]. rewrite Qmult_0_l.
    change 0%Q with (inject_Z 0). rewrite <- Zle_Qle. lia.
  - apply Qlt_shift_div_r; [exact PQ|]. rewrite Qmult_1_l.
    rewrite <- Zlt_Qlt. lia.
Qed.

(** X4: for an unsigned binary-fraction string of at most 1000 digits,
    the converted value lies between the base-2 value of the integer
    part and that value plus one, the upper bound excluded: the
    fractional digits never carry into the integer part. *)
Theorem binary_to_decimal_integer_part (s : string) (c : context) :
  binary_fraction s = true -> startswith "-" s = false -> digit_count s <= 1000 ->
  exists d,
    fst (binary_to_decimal s c) = inr d /\
    (inject_Z (bits_value (fst (split_first "." s)) 0) <= DtoQ d)%Q /\
    (DtoQ d < inject_Z (bits_value (fst (split_first "." s)) 0) + 1)%Q.
Proof.
  intros Hb Hs Hc. destruct (convert_exact s c Hb Hc) as (d & R & _ & V).
  exists d. rewrite R. split; [reflexivity|]. rewrite V.
  unfold bf_value. rewrite (unsigned_part_plain s Hs), Hs.
  destruct (split_first "." s) as [ip fp]. cbn [fst].
  destruct (frac_sum_unit fp) as [F0 F1]. split.
  - rewrite <- (Qplus_0_r (inject_Z (bits_value ip 0))) at 1.
    apply Qplus_le_r. exact F0.
  - apply Qplus_lt_r. exact F1.
Qed.

Lemma binary_to_decimal_integer_part_witness :
  exists d,
    fst (binary_to_decimal "110.0111" default_context) = inr d /\
    (inject_Z (bits_value (fst (split_first "." "110.0111")) 0) <= DtoQ d)%Q /\
    (DtoQ d < inject_Z (bits_value (fst (split_first "." "110.0111")) 0) + 1)%Q.
Proof.
  apply (binary_to_decimal_integer_part "110.0111" default_context).
  - reflexivity.
  - reflexivity.
  - vm_compute. discriminate.
Defined.

(* ------------------------------------------------------------------ *)
(** ** More on the decoder *)

Lemma len_replicate (k : nat) (ch : ascii) : len (replicate k ch) = Z.of_nat k.
Proof.
  unfold len. induction k as [|k IH]; [reflexivity|]. cbn [replicate String.length]. lia.
Qed.

Lemma len_padded (p : string) : len (padded p) = len p + (4 - len p mod 4) mod 4.
Proof.
  unfold padded, repeat_chr. rewrite len_app, len_replicate, Z2Nat.id; [reflexivity|].
  apply Z.mod_pos_bound. lia.
Qed.

Lemma len_repad (p : string) : len (repad p) mod 4 = 0.
Proof. rewrite repad_padded, len_padded. Z.div_mod_to_equations. lia. Qed.

Lemma repad_idempotent (p : string) : repad (repad p) = repad p.
Proof. unfold repad at 1. now rewrite len_repad. Qed.

(** X5: the padding step makes the payload length a multiple of four by
    appending at most three [=], and applying it twice is applying it
    once; so a token that already carries its padding is decoded like
    the token without it. *)
Theorem repad_fills_to_multiple_of_four (p : string) :
  len (repad p) mod 4 = 0 /\
  (exists k, (k <= 3)%nat /\ repad p = p ++ replicate k "=") /\
  repad (repad p) = repad p /\
  forall urlparse_fragment zlib_decompress decode_utf8 json_loads,
    decode_fractalwonder_url urlparse_fragment zlib_decompress decode_utf8
      json_loads ("v1:" ++ repad p)
    = decode_fractalwonder_url urlparse_fragment zlib_decompress decode_utf8
        json_loads ("v1:" ++ p).
Proof.
  split; [apply len_repad|]. split; [|split; [apply repad_idempotent|]].
  - exists (Z.to_nat ((4 - len p mod 4) mod 4)). split.
    + pose proof (Z.mod_pos_bound (4 - len p mod 4) 4 ltac:(lia)). lia.
    + rewrite repad_padded. reflexivity.
  - intros up zd du jl. now rewrite !decode_token, repad_idempotent.
Qed.

Lemma translate_chr_idem (ch : ascii) : translate_chr (translate_chr ch) = translate_chr ch.
Proof.
  unfold translate_chr.
  destruct (chr_eqb ch "-") eqn:E1; [reflexivity|].
  destruct (chr_eqb ch "_") eqn:E2; [reflexivity|]. now rewrite E1, E2.
Qed.

Lemma translate_chr_ascii (ch : ascii) :
  (code (translate_chr ch) <? 128) = (code ch <? 128).
Proof.
  unfold translate_chr.
  destruct (chr_eqb ch "-") eqn:E1; [apply chr_eqb_eq in E1; now subst|].
  destruct (chr_eqb ch "_") eqn:E2; [apply chr_eqb_eq in E2; now subst|]. reflexivity.
Qed.

Lemma translate_idem (s : string) :
  translate_urlsafe (translate_urlsafe s) = translate_urlsafe s.
Proof.
  induction s as [|ch s IH]; [reflexivity|].
  rewrite !translate_cons, translate_chr_idem, IH. reflexivity.
Qed.

Lemma translate_ascii (s : string) : is_ascii (translate_urlsafe s) = is_ascii s.
Proof.
  induction s as [|ch s IH]; [reflexivity|].
  rewrite translate_cons. cbn [is_ascii]. now rewrite translate_chr_ascii, IH.
Qed.

Lemma len_translate (s : string) : len (translate_urlsafe s) = len s.
Proof.
  induction s as [|ch s IH]; [reflexivity|]. now rewrite translate_cons, !len_cons, IH.
Qed.

Lemma repad_translate (p : string) :
  repad (translate_urlsafe p) = translate_urlsafe (repad p).
Proof.
  rewrite !repad_padded. unfold padded, repeat_chr.
  now rewrite translate_app, translate_pads, len_translate.
Qed.

(** X6: the decoder reads the standard base64 alphabet as well as the
    URL-safe one: a payload with [+] and [/] in the places of [-] and
    [_] is decoded like the URL-safe payload. *)
Theorem decode_accepts_standard_alphabet
    (urlparse_fragment : string -> exn + string)
    (zlib_decompress : list Z -> exn + list Z)
    (decode_utf8 : list Z -> exn + string)
    (json_loads : string -> exn + json) (p : string) :
  urlsafe_b64decode (repad (translate_urlsafe p)) = urlsafe_b64decode (repad p) /\
  decode_fractalwonder_url urlparse_fragment zlib_decompress decode_utf8
    json_loads ("v1:" ++ translate_urlsafe p)
  = decode_fractalwonder_url urlparse_fragment zlib_decompress decode_utf8
      json_loads ("v1:" ++ p).
Proof.
  assert (E : urlsafe_b64decode (repad (translate_urlsafe p))
              = urlsafe_b64decode (repad p)).
  { rewrite repad_translate. unfold urlsafe_b64decode.
    now rewrite translate_ascii, translate_idem. }
  split; [exact E|]. now rewrite !decode_token, E.
Qed.

(** X7: a full URL is decoded as its fragment is: for an argument that
    begins with [http://] or [https://], the decoder returns what it
    returns on the fragment [urlparse] finds, provided the fragment does
    not itself begin with one of the two; and it fails as [urlparse]
    does when that fails. *)
Theorem decode_url_as_fragment
    (urlparse_fragment : string -> exn + string)
    (zlib_decompress : list Z -> exn + list Z)
    (decode_utf8 : list Z -> exn + string)
    (json_loads : string -> exn + json) (u : string) :
  startswith "http://" u || startswith "https://" u = true ->
  (forall h, urlparse_fragment u = inr h ->
     startswith "http://" h || startswith "https://" h = false ->
     decode_fractalwonder_url urlparse_fragment zlib_decompress decode_utf8
       json_loads u
     = decode_fractalwonder_url urlparse_fragment zlib_decompress decode_utf8
         json_loads h) /\
  (forall e, urlparse_fragment u = inl e ->
     decode_fractalwonder_url urlparse_fragment zlib_decompress decode_utf8
       json_loads u = inl e).
Proof.
  intros Hu. split.
  - intros h Hh Hn. unfold decode_fractalwonder_url. rewrite Hu, Hh, Hn. reflexivity.
  - intros e He. unfold decode_fractalwonder_url. rewrite Hu, He. reflexivity.
Qed.

Lemma decode_url_as_fragment_witness :
  decode_fractalwonder_url url_fragment inflate_stored ascii_text loads_empty
    "https://fractalwonder.example/#v1:AQIA_f97fQ"
  = decode_fractalwonder_url url_fragment inflate_stored ascii_text loads_empty
      "v1:AQIA_f97fQ".
Proof.
  apply (proj1 (decode_url_as_fragment url_fragment inflate_stored ascii_text
                  loads_empty "https://fractalwonder.example/#v1:AQIA_f97fQ"
                  eq_refl)); reflexivity.
Defined.

(** The bytes of the decoding loop. *)
Lemma a2b_loop_bytes (s : string) : forall q lc p bs,
  0 <= q <= 3 ->
  a2b_loop s q lc p = inr bs ->
  Forall is_byte bs /\
  4 * Z.of_nat (List.length bs) <= 3 * len s + (4 - q) mod 4.
Proof.
  induction s as [|ch s IH]; intros q lc p bs Hq; cbn [a2b_loop].
  - destruct (q =? 0); [|discriminate]. intros [= <-]. split; [constructor|].
    cbn [List.length]. change (len "") with 0.
    pose proof (Z.mod_pos_bound (4 - q) 4 ltac:(lia)). lia.
  - rewrite len_cons.
    assert (G : forall q', 0 <= q' <= 3 -> (4 - q') mod 4 <= 3 + (4 - q) mod 4).
    { intros q' Hq'. pose proof (Z.mod_pos_bound (4 - q') 4 ltac:(lia)).
      pose proof (Z.mod_pos_bound (4 - q) 4 ltac:(lia)). lia. }
    assert (Skip : forall lc' p', a2b_loop s q lc' p' = inr bs ->
              Forall is_byte bs /\
              4 * Z.of_nat (List.length bs) <= 3 * (len s + 1) + (4 - q) mod 4).
    { intros lc' p' H. destruct (IH q lc' p' bs Hq H) as [B L]. split; [exact B|lia]. }
    assert (Em : forall b r q', 0 <= q' <= 3 -> (4 - q') mod 4 + 1 <= (4 - q) mod 4 ->
              (forall lc' p', r = a2b_loop s q' lc' p' ->
               emit (b mod 256) r = inr bs ->
               Forall is_byte bs /\
               4 * Z.of_nat (List.length bs) <= 3 * (len s + 1) + (4 - q) mod 4)).
    { intros b r q' Hq' Hg lc' p' -> H.
      destruct (a2b_loop s q' lc' p') as [x|bs'] eqn:E; [discriminate|].
      cbn [emit] in H. injection H as <-.
      destruct (IH q' lc' p' bs' Hq' E) as [B L]. split.
      - constructor; [|exact B]. unfold is_byte. apply Z.mod_pos_bound. lia.
      - cbn [List.length]. lia. }
    destruct (chr_eqb ch "=").
    + destruct (2 <=? q).
      * destruct (4 <=? q + (p + 1)); [|apply Skip].
        intros [= <-]. split; [constructor|]. cbn [List.length].
        pose proof (len_nonneg s). pose proof (Z.mod_pos_bound (4 - q) 4 ltac:(lia)). lia.
      * apply Skip.
    + cbv zeta. destruct (64 <=? table_a2b_base64 ch); [apply Skip|].
      destruct (Z.eqb_spec q 0) as [->|N0].
      { intros H. destruct (IH 1 _ 0 bs ltac:(lia) H) as [B L]. split; [exact B|].
        change ((4 - 1) mod 4) with 3 in L. change ((4 - 0) mod 4) with 0. lia. }
      destruct (Z.eqb_spec q 1) as [->|N1].
      { apply (Em _ _ 2 ltac:(lia) ltac:(reflexivity || (vm_compute; discriminate))
                  (Z.land (table_a2b_base64 ch) 15) 0 eq_refl). }
      destruct (Z.eqb_spec q 2) as [->|N2].
      { apply (Em _ _ 3 ltac:(lia) ltac:(vm_compute; discriminate)
                  (Z.land (table_a2b_base64 ch) 3) 0 eq_refl). }
      assert (q = 3) by lia. subst q.
      apply (Em _ _ 0 ltac:(lia) ltac:(vm_compute; discriminate) 0 0 eq_refl).
Qed.

(** X8: whatever the payload, what the base64 stage hands on is a string
    of bytes, each in 0..255, and four bytes at most for every three
    characters of the padded payload. *)
Theorem b64decode_yields_bytes (p : string) (bs : list Z) :
  urlsafe_b64decode (repad p) = inr bs ->
  Forall is_byte bs /\ 4 * Z.of_nat (List.length bs) <= 3 * len (repad p).
Proof.
  unfold urlsafe_b64decode, a2b_base64.
  destruct (is_ascii (repad p)); [|discriminate]. intros H.
  destruct (a2b_loop_bytes _ 0 0 0 bs ltac:(lia) H) as [B L].
  split; [exact B|]. rewrite len_translate in L. change ((4 - 0) mod 4) with 0 in L. lia.
Qed.

Lemma b64decode_yields_bytes_witness :
  Forall is_byte [1; 2; 0; 253; 255; 123; 125] /\
  4 * Z.of_nat (List.length [1; 2; 0; 253; 255; 123; 125]) <= 3 * len (repad "AQIA_f97fQ").
Proof. apply (b64decode_yields_bytes "AQIA_f97fQ"). vm_compute. reflexivity. Defined.

(* ------------------------------------------------------------------ *)
(** ** What the zoom-depth estimate says about the width *)

Lemma pow301 : 10 ^ 301 <= 2 ^ 1000.
Proof. apply Z.leb_le. vm_compute. reflexivity. Qed.

Lemma pow10_le_pow2 (zd n : Z) :
  0 <= zd -> 0 <= n -> 1000 * zd <= 301 * n -> 10 ^ zd <= 2 ^ n.
Proof.
  intros Hz Hn H.
  apply (proj2 (Z.pow_le_mono_l_iff (10 ^ zd) (2 ^ n) 1000
                  ltac:(apply Z.pow_nonneg; lia) ltac:(apply Z.pow_nonneg; lia)
                  ltac:(lia))).
  { rewrite <- !Z.pow_mul_r by lia.
    apply Z.le_trans with (10 ^ (301 * n)).
    + apply Z.pow_le_mono_r; lia.
    + rewrite (Z.pow_mul_r 10 301 n), (Z.mul_comm n 1000), (Z.pow_mul_r 2 1000 n) by lia.
      apply Z.pow_le_mono_l. split; [apply Z.pow_nonneg; lia|apply pow301]. }
Qed.

(** X9: for up to 10000 leading zeros [n], the estimate [zd] is at least
    zero, at most [n], and never overstates the depth: [10^zd <= 2^n].
    It does not decrease when [n] grows. *)
Theorem zoom_depth_never_overstates (n m : Z) :
  0 <= n <= m -> m <= 10000 ->
  exists zd zd',
    zoom_depth_of n = inr zd /\ zoom_depth_of m = inr zd' /\
    0 <= zd <= n /\ 10 ^ zd <= 2 ^ n /\ zd <= zd'.
Proof.
  intros Hn Hm. exists (n * 301 / 1000), (m * 301 / 1000).
  rewrite !zoom_depth_of_exact by lia.
  split; [reflexivity|]. split; [reflexivity|].
  assert (B : 0 <= n * 301 / 1000 <= n) by (Z.div_mod_to_equations; lia).
  split; [exact B|]. split.
  - apply pow10_le_pow2; try lia. Z.div_mod_to_equations. lia.
  - apply Z.div_le_mono; lia.
Qed.

Lemma zoom_depth_never_overstates_witness :
  exists zd zd',
    zoom_depth_of 3322 = inr zd /\ zoom_depth_of 3323 = inr zd' /\
    0 <= zd <= 3322 /\ 10 ^ zd <= 2 ^ 3322 /\ zd <= zd'.
Proof. apply (zoom_depth_never_overstates 3322 3323); lia. Defined.

Lemma bits_value_leading_zeros (fp : string) :
  all_bits fp = true ->
  bits_value fp 0 * 2 ^ count_zeros fp < 2 ^ len fp.
Proof.
  induction fp as [|ch fp IH]; intros H; [reflexivity|].
  destruct (all_bits_cons ch fp H) as ([-> | ->] & Hfp).
  - cbn [bits_value count_zeros]. change (chr_eqb "0" "1") with false.
    change (chr_eqb "0" "0") with true. cbv iota.
    change (2 * 0 + 0) with 0. rewrite len_cons.
    pose proof (count_zeros_nonneg fp). pose proof (len_nonneg fp).
    rewrite (Z.add_comm 1), !Z.pow_add_r, Z.pow_1_r by lia.
    specialize (IH Hfp). lia.
  - cbn [count_zeros]. change (chr_eqb "1" "0") with false. cbv iota.
    rewrite Z.pow_0_r, Z.mul_1_r. apply (bits_value_split (String "1" fp) 0).
Qed.

(** X10: the estimate is a true bound on the width.  For an unsigned
    binary-fraction width of at most 1000 digits whose integer part is
    zero, the converted value [d] and the estimate [zd] shown for it
    satisfy [d * 10^zd < 1]: the width is below [10^(-zd)]. *)
Theorem zoom_depth_bounds_width (s : string) (c : context) :
  binary_fraction s = true -> startswith "-" s = false -> digit_count s <= 1000 ->
  bits_value (fst (split_first "." s)) 0 = 0 ->
  exists d zd,
    fst (binary_to_decimal s c) = inr d /\
    zoom_depth_of (leading_zero_count s) = inr zd /\
    (DtoQ d * inject_Z (10 ^ zd) < 1)%Q.
Proof.
  intros Hb Hs Hc Hi. destruct (convert_exact s c Hb Hc) as (d & R & _ & V).
  unfold leading_zero_count.
  revert Hb Hc Hi V. unfold binary_fraction, digit_count, bf_value.
  rewrite (unsigned_part_plain s Hs), Hs.
  destruct (split_first "." s) as [ip fp]. cbn [fst snd].
  intros Hb Hc Hi V. apply andb_true_iff in Hb as [_ Hfp]. rewrite Hi in V.
  pose proof (len_nonneg ip) as Lip. pose proof (len_nonneg fp) as Lfp.
  pose proof (count_zeros_nonneg fp) as Zn.
  pose proof (bits_value_leading_zeros fp Hfp) as BZ.
  destruct (bits_value_split fp 0) as (_ & BF).
  assert (P : 0 < 2 ^ len fp) by (apply Z.pow_pos_nonneg; lia).
  assert (Pz : 0 < 2 ^ count_zeros fp) by (apply Z.pow_pos_nonneg; lia).
  assert (Zl : count_zeros fp <= len fp).
  { destruct (Z.le_gt_cases (count_zeros fp) (len fp)) as [|G]; [assumption|].
    destruct (Z.eq_dec (bits_value fp 0) 0) as [E0|N0].
    - clear - G Hfp. exfalso. revert G. induction fp as [|ch fp IH]; [cbn; lia|].
      destruct (all_bits_cons ch fp Hfp) as (_ & Hr). rewrite len_cons.
      cbn [count_zeros]. destruct (chr_eqb ch "0").
      + specialize (IH Hr). lia.
      + pose proof (len_nonneg fp). lia.
    - assert (2 ^ len fp <= 2 ^ count_zeros fp) by (apply Z.pow_le_mono_r; lia). nia. }
  exists d, (count_zeros fp * 301 / 1000).
  rewrite R, zoom_depth_of_exact by lia.
  split; [reflexivity|]. split; [reflexivity|].
  assert (T : 10 ^ (count_zeros fp * 301 / 1000) <= 2 ^ count_zeros fp).
  { apply pow10_le_pow2; try lia; Z.div_mod_to_equations; lia. }
  assert (T0 : 0 < 10 ^ (count_zeros fp * 301 / 1000)).
  { apply Z.pow_pos_nonneg; [lia|]. Z.div_mod_to_equations. lia. }
  rewrite V, (frac_sum_bits fp 1) by lia.
  replace (1 - 1 + len fp) with (len fp) by lia.
  assert (PQ : (0 < inject_Z (2 ^ len fp))%Q)
    by (change 0%Q with (inject_Z 0); now rewrite <- Zlt_Qlt).
  change (inject_Z 0) with 0%Q. rewrite Qplus_0_l.
  unfold Qdiv. rewrite <- Qmult_assoc, (Qmult_comm (/ _)), Qmult_assoc.
  apply Qlt_shift_div_r; [exact PQ|]. rewrite Qmult_1_l.
  rewrite <- inject_Z_mult, <- Zlt_Qlt. nia.
Qed.

Lemma zoom_depth_bounds_width_witness :
  exists d zd,
    fst (binary_to_decimal "0.00000000001101" default_context) = inr d /\
    zoom_depth_of (leading_zero_count "0.00000000001101") = inr zd /\
    (DtoQ d * inject_Z (10 ^ zd) < 1)%Q.
Proof.
  apply (zoom_depth_bounds_width "0.00000000001101" default_context).
  - reflexivity.
  - reflexivity.
  - vm_compute. discriminate.
  - reflexivity.
Defined.

(* ------------------------------------------------------------------ *)
(** ** The renderer and the decimal context *)

Lemma binary_to_decimal_any_run (v : json) (c : context) :
  binary_to_decimal_any v c = (convert_any_result v, mkContext 1000).
Proof.
  destruct v; cbn [binary_to_decimal_any convert_any_result];
    try (rewrite bind_run; cbn [set_prec];
         match goal with |- context [truthy ?v] => destruct (truthy v) end;
         reflexivity).
  apply binary_to_decimal_run.
Qed.


Lemma format_bigfloat_run (str_other : json -> string) (bf : json) (c : context) :
  format_bigfloat str_other bf c =
  if is_precision_number bf then
    match bf with
    | JDict kv =>
        match convert_any_result (get_or kv "value" JNull) with
        | inr d => format_decimal d (mkContext 1000)
        | inl e => (inl e, mkContext 1000)
        end
    | _ => (inr (py_str str_other bf), c)
    end
  else (inr (py_str str_other bf), c).
Proof.
  destruct bf; try reflexivity. cbn [format_bigfloat is_precision_number]. unfold get_or.
  destruct (dict_get entries "value") as [v|]; [|reflexivity].
  rewrite bind_run, binary_to_decimal_any_run.
  destruct (convert_any_result v); reflexivity.
Qed.















(* ------------------------------------------------------------------ *)
(** ** The raw section of the report *)

Lemma map_result_bind {A B C} (f : B -> C) (m : M A) (k1 : A -> M C) (k2 : A -> M B) :
  (forall a c, k1 a c = map_result f (k2 a) c) ->
  forall c, bind m k1 c = map_result f (bind m k2) c.
Proof.
  intros H c. unfold map_result. rewrite !bind_run.
  destruct (m c) as [[e|a] c']; [reflexivity|]. apply H.
Qed.

Lemma format_viewport_lines_raw (str_other json_dumps : json -> string)
      (state : json) (c : context) :
  format_viewport_lines str_other json_dumps state true c
  = map_result (fun ls => List.app ls (raw_section json_dumps state))
      (format_viewport_lines str_other json_dumps state false) c.
Proof.
  unfold format_viewport_lines. revert c.
  repeat (apply map_result_bind; intros ?).
  intros c. unfold map_result, raw_section. cbn [ret].
  rewrite app_nil_r, <- !List.app_assoc. reflexivity.
Qed.

Lemma join_lines_app (l1 l2 : list string) :
  l1 <> [] -> l2 <> [] ->
  join_lines (List.app l1 l2) = join_lines l1 ++ nl ++ join_lines l2.
Proof.
  intros H1 H2. induction l1 as [|a l1 IH]; [congruence|].
  destruct l1 as [|b l1].
  - destruct l2 as [|x l2]; [congruence|]. reflexivity.
  - change (join_lines (List.app (a :: b :: l1) l2))
      with (a ++ nl ++ join_lines (List.app (b :: l1) l2)).
    rewrite IH by discriminate.
    change (join_lines (a :: b :: l1)) with (a ++ nl ++ join_lines (b :: l1)).
    now rewrite !string_app_assoc.
Qed.

(** X13: the report with [show_raw] is the report without it followed
    by a new line and the raw section (a rule, the heading, a rule, and
    [json.dumps] of the state); the two fail together, with the same
    exception. *)
Theorem format_viewport_raw (str_other json_dumps : json -> string)
      (state : json) (c : context) :
  format_viewport str_other json_dumps state true c
  = map_result (fun report => report ++ nl ++ join_lines (raw_section json_dumps state))
      (format_viewport str_other json_dumps state false) c.
Proof.
  unfold format_viewport. rewrite !bind_run, format_viewport_lines_raw.
  unfold map_result. rewrite bind_run.
  destruct (format_viewport_lines str_other json_dumps state false c)
    as [[e|ls] c'] eqn:E; [reflexivity|].
  unfold ret. f_equal. f_equal. apply join_lines_app; [|discriminate].
  destruct state; try (cbn in E; discriminate E).
  apply format_viewport_lines_inv in E.
  destruct E as (vkv & cx & cy & w & h & zoom & _ & -> & _). discriminate.
Qed.

(* ------------------------------------------------------------------ *)
(** ** The command line *)



Section ScriptProperties.

Variable urlparse_fragment : string -> exn + string.
Variable zlib_decompress : list Z -> exn + list Z.
Variable decode_utf8 : list Z -> exn + string.
Variable json_loads : string -> exn + json.
Variable str_other : json -> string.
Variable json_dumps : json -> string.
Variable str_exn : string -> exn -> string.


End ScriptProperties.

Section ScriptClaims.

Variable urlparse_fragment : string -> exn + string.
Variable zlib_decompress : list Z -> exn + list Z.
Variable decode_utf8 : list Z -> exn + string.
Variable json_loads : string -> exn + json.
Variable str_other : json -> string.
Variable json_dumps : json -> string.
Variable str_exn : string -> exn -> string.

(** X14: every run prints exactly one text, on the standard output or
    on the standard error; the exit status is 0 or 1; and it is 0
    exactly when there was an argument and nothing went to the standard
    error. *)
Theorem main_output_discipline (args : list string) (c : context) :
  (List.length (stdout (fst (main urlparse_fragment zlib_decompress decode_utf8
       json_loads str_other json_dumps str_exn args c)))
   + List.length (stderr (fst (main urlparse_fragment zlib_decompress decode_utf8
       json_loads str_other json_dumps str_exn args c))) = 1)%nat /\
  (exit_status (fst (main urlparse_fragment zlib_decompress decode_utf8
       json_loads str_other json_dumps str_exn args c)) = 0 \/
   exit_status (fst (main urlparse_fragment zlib_decompress decode_utf8
       json_loads str_other json_dumps str_exn args c)) = 1) /\
  (exit_status (fst (main urlparse_fragment zlib_decompress decode_utf8
       json_loads str_other json_dumps str_exn args c)) = 0
   <-> args <> [] /\
       stderr (fst (main urlparse_fragment zlib_decompress decode_utf8
         json_loads str_other json_dumps str_exn args c)) = []).
Proof.
  unfold main.
  destruct args as [|a r];
    [cbn; repeat split; try (now right); try discriminate; intros [H _]; congruence|].
  cbv iota. cbn [orb].
  assert (N : a :: r <> []) by discriminate. revert N.
  generalize (a :: r). intros args N.
  destruct (mem "-h" args || mem "--help" args) eqn:Eh;
    [cbn; repeat split; auto|]. cbv zeta.
  destruct (first_positional args) as [u|];
    [|cbn; repeat split; auto; try discriminate; intros [_ H]; discriminate H].
  destruct (is_empty u);
    [cbn; repeat split; auto; try discriminate; intros [_ H]; discriminate H|].
  destruct (decode_fractalwonder_url _ _ _ _ u) as [e|state];
    [cbn; repeat split; auto; try discriminate; intros [_ H]; discriminate H|].
  destruct (mem "--json" args); [cbn; repeat split; auto|].
  destruct (format_viewport _ _ state _ c) as [[e|report] c'];
    cbn; repeat split; auto; try discriminate; intros [_ H]; discriminate H.
Qed.





(** X16: a token that decodes to a JSON value other than an object is
    printed by [--json] and makes the report fail: without [--json] the
    run ends with an error message for the [AttributeError] of
    [state.get] and exit status 1. *)
Theorem main_non_object_document (args : list string) (u : string) (state : json)
      (c : context) :
  mem "-h" args = false -> mem "--help" args = false ->
  first_positional args = Some u -> is_empty u = false ->
  decode_fractalwonder_url urlparse_fragment zlib_decompress decode_utf8
    json_loads u = inr state ->
  is_dict state = false ->
  main urlparse_fragment zlib_decompress decode_utf8 json_loads str_other
    json_dumps str_exn args c
  = if mem "--json" args then (mkOutput [json_dumps state] [] 0, c)
    else (mkOutput [] ["Error decoding URL: " ++ str_exn u AttributeError] 1, c).
Proof.
  intros H1 H2 Hu He Hd Hs. unfold main. rewrite H1, H2, Hu, He, Hd.
  destruct args as [|a r]; [discriminate Hu|]. cbn [orb]. cbv zeta.
  destruct (mem "--json" (a :: r)); [reflexivity|].
  destruct state; try discriminate Hs; reflexivity.
Qed.


End ScriptClaims.


Lemma main_non_object_document_witness :
  main url_fragment inflate_stored ascii_text loads_empties (fun _ => "")
    (fun _ => "[]") (fun _ _ => "AttributeError") ["v1:AQIA_f9bXQ"] default_context
  = (mkOutput [] ["Error decoding URL: AttributeError"] 1, default_context).
Proof.
  apply (main_non_object_document url_fragment inflate_stored ascii_text
           loads_empties (fun _ => "") (fun _ => "[]") (fun _ _ => "AttributeError")
           ["v1:AQIA_f9bXQ"] "v1:AQIA_f9bXQ" (JList []) default_context);
    reflexivity.
Defined.

(* ------------------------------------------------------------------ *)
(** ** The shape of the scientific rendering *)

Lemma ndigits_unique (n k : Z) :
  1 <= k -> 10 ^ (k - 1) <= Z.abs n < 10 ^ k -> ndigits n = k.
Proof.
  intros Hk [Hlo Hhi]. pose proof (ndigits_le n k Hk Hhi) as Hle.
  destruct (ndigits_spec n) as (H1 & Hlt & _).
  assert (H : 10 ^ (k - 1) < 10 ^ ndigits n) by lia.
  apply Z.pow_lt_mono_r_iff in H; lia.
Qed.

Lemma ndigits_shift (n k : Z) :
  n <> 0 -> 0 <= k -> ndigits (n * 10 ^ k) = ndigits n + k.
Proof.
  intros Hn Hk. destruct (ndigits_spec n) as (H1 & Hhi & Hlo). specialize (Hlo Hn).
  assert (P : 0 < 10 ^ k) by (apply Z.pow_pos_nonneg; lia).
  apply ndigits_unique; [lia|]. rewrite Z.abs_mul, (Z.abs_eq (10 ^ k)) by lia.
  replace (ndigits n + k - 1) with (ndigits n - 1 + k) by lia.
  rewrite !Z.pow_add_r by lia. nia.
Qed.

Lemma digits_string_length (k : nat) : forall n acc,
  String.length (digits_string k n acc) = (k + String.length acc)%nat.
Proof.
  induction k as [|k IH]; intros n acc; [reflexivity|].
  cbn [digits_string]. rewrite IH. cbn [String.length]. lia.
Qed.

Lemma digits_of_length (n : Z) : String.length (digits_of n) = Z.to_nat (ndigits n).
Proof. unfold digits_of. rewrite digits_string_length. cbn. lia. Qed.

Lemma dec_rescale_pad (d : Decimal) (exp : Z) :
  coef d <> 0 -> exp <= expo d ->
  dec_rescale d exp = mkDecimal (coef d * 10 ^ (expo d - exp)) exp.
Proof.
  intros Hc He. unfold dec_rescale.
  destruct (Z.eqb_spec (coef d) 0); [contradiction|].
  destruct (Z.leb_spec exp (expo d)); [reflexivity|lia].
Qed.

Lemma dec_rescale_round (d : Decimal) (exp : Z) :
  coef d <> 0 -> expo d < exp -> exp <= ndigits (coef d) + expo d ->
  dec_rescale d exp
  = mkDecimal (Z.sgn (coef d) * round_half_even (Z.abs (coef d)) (exp - expo d)) exp.
Proof.
  intros Hc He Hd. unfold dec_rescale.
  destruct (Z.eqb_spec (coef d) 0); [contradiction|].
  destruct (Z.leb_spec exp (expo d)); [lia|].
  destruct (Z.ltb_spec (ndigits (coef d) + expo d - exp) 0); [lia|]. reflexivity.
Qed.

Lemma abs_sgn_mul (c q : Z) : c <> 0 -> 0 <= q -> Z.abs (Z.sgn c * q) = q.
Proof.
  intros Hc Hq. rewrite Z.abs_mul, (Z.abs_eq q) by lia.
  assert (Z.abs (Z.sgn c) = 1); [|lia].
  destruct (Z.sgn_spec c) as [[? E]|[[? ?]|[? E]]]; rewrite ?E; lia.
Qed.

(** Rounding to [p] significant digits gives [p] digits. *)
Lemma dec_round_digits (d : Decimal) (p : Z) :
  1 <= p -> coef d <> 0 -> ndigits (coef (dec_round d p)) = p.
Proof.
  intros Hp Hc. unfold dec_round.
  destruct (Z.eqb_spec (coef d) 0) as [|_]; [contradiction|]. cbv zeta.
  destruct (ndigits_spec (coef d)) as (N1 & Nhi & Nlo). specialize (Nlo Hc).
  remember (ndigits (coef d)) as n eqn:En.
  assert (A : adjusted d + 1 - p = n + expo d - p) by (unfold adjusted; lia).
  rewrite !A.
  destruct (Z.le_gt_cases (n + expo d - p) (expo d)) as [Le|Gt].
  - (* padding with zeros *)
    rewrite (dec_rescale_pad d _ Hc Le).
    assert (E : ndigits (coef d * 10 ^ (expo d - (n + expo d - p))) = p).
    { rewrite ndigits_shift by lia. lia. }
    unfold adjusted. cbn [coef expo]. rewrite E, <- En.
    replace (p + (n + expo d - p) - 1) with (n + expo d - 1) by lia.
    rewrite Z.eqb_refl. cbn [coef]. exact E.
  - (* rounding *)
    rewrite (dec_rescale_round d (n + expo d - p) Hc ltac:(lia) ltac:(lia)).
    replace (n + expo d - p - expo d) with (n - p) by lia.
    remember (n - p) as k eqn:Ek. assert (Hk : 0 < k) by lia.
    remember (round_half_even (Z.abs (coef d)) k) as q eqn:Eq.
    pose proof (round_half_even_bounds (Z.abs (coef d)) k ltac:(lia) Hk) as B.
    rewrite <- Eq in B.
    assert (Pk : 0 < 10 ^ k) by (apply Z.pow_pos_nonneg; lia).
    assert (Dlo : 10 ^ (p - 1) <= Z.abs (coef d) / 10 ^ k).
    { apply Z.div_le_lower_bound; [lia|].
      rewrite <- Z.pow_add_r by lia. replace (k + (p - 1)) with (n - 1) by lia.
      exact Nlo. }
    assert (Dhi : Z.abs (coef d) / 10 ^ k < 10 ^ p).
    { apply Z.div_lt_upper_bound; [lia|].
      rewrite <- Z.pow_add_r by lia. replace (k + p) with n by lia.
      exact Nhi. }
    assert (Pp : 0 < 10 ^ (p - 1)) by (apply Z.pow_pos_nonneg; lia).
    assert (Sg : Z.abs (Z.sgn (coef d) * q) = q) by (apply abs_sgn_mul; lia).
    destruct (Z.lt_ge_cases q (10 ^ p)) as [Lt|Ge].
    + assert (E : ndigits (Z.sgn (coef d) * q) = p).
      { apply ndigits_unique; [lia|]. rewrite Sg. lia. }
      unfold adjusted. cbn [coef expo]. rewrite E, <- En.
      replace (p + (n + expo d - p) - 1) with (n + expo d - 1) by lia.
      rewrite Z.eqb_refl. cbn [coef]. exact E.
    + assert (Eqp : q = 10 ^ p) by lia.
      assert (Pp1 : 10 ^ p < 10 ^ (p + 1)) by (apply Z.pow_lt_mono_r; lia).
      assert (E : ndigits (Z.sgn (coef d) * q) = p + 1).
      { apply ndigits_unique; [lia|]. rewrite Sg, Eqp.
        replace (p + 1 - 1) with p by lia. lia. }
      unfold adjusted. cbn [coef expo]. rewrite E, <- En.
      destruct (Z.eqb_spec (p + 1 + (n + expo d - p) - 1) (n + expo d - 1)) as [|_]; [lia|].
      assert (Nz : Z.sgn (coef d) * q <> 0) by lia.
      rewrite dec_rescale_round; cbn [coef expo]; try rewrite E; try lia.
      rewrite Sg.
      replace (p + 1 + (n + expo d - p) - 1 + 1 - p - (n + expo d - p)) with 1 by lia.
      assert (R : round_half_even q 1 = 10 ^ (p - 1)).
      { unfold round_half_even. change (1 <=? 0) with false. cbv iota zeta.
        change (10 ^ 1) with 10. change (5 * 10 ^ (1 - 1)) with 5.
        assert (T : q = 10 ^ (p - 1) * 10).
        { rewrite Eqp. replace p with (p - 1 + 1) at 1 by lia.
          rewrite Z.pow_add_r by lia. reflexivity. }
        rewrite T, Z.div_mul, Z.mod_mul by lia. reflexivity. }
      rewrite R. apply ndigits_unique; [lia|].
      rewrite abs_sgn_mul by lia. split; [lia|]. apply Z.pow_lt_mono_r; lia.
Qed.

Lemma digits_string_head (k : nat) : forall n acc,
  exists rest,
    digits_string (S k) n acc
    = String (digit_chr ((n / 10 ^ Z.of_nat k) mod 10)) rest.
Proof.
  induction k as [|k IH]; intros n acc.
  - exists acc. cbn [digits_string]. now rewrite Z.pow_0_r, Z.div_1_r.
  - destruct (IH (n / 10) (String (digit_chr (n mod 10)) acc)) as (rest & E).
    exists rest. change (digits_string (S (S k)) n acc)
      with (digits_string (S k) (n / 10) (String (digit_chr (n mod 10)) acc)).
    rewrite E. rewrite Z.div_div by (try apply Z.pow_pos_nonneg; lia).
    rewrite Nat2Z.inj_succ, Z.pow_succ_r by lia. reflexivity.
Qed.

Lemma digit_chr_nonzero (v : Z) : 1 <= v <= 9 -> digit_chr v <> "0"%char.
Proof.
  intros H. assert (C : In v [1; 2; 3; 4; 5; 6; 7; 8; 9]) by (cbn; lia).
  cbn in C. repeat (destruct C as [<-|C]; [discriminate|]). contradiction.
Qed.

(** The digits of a number start with a digit that is not zero. *)
Lemma digits_of_head (n : Z) :
  n <> 0 -> exists a rest, digits_of n = String a rest /\ a <> "0"%char.
Proof.
  intros Hn. destruct (ndigits_spec n) as (H1 & Hhi & Hlo). specialize (Hlo Hn).
  unfold digits_of.
  destruct (Z.to_nat (ndigits n)) as [|k] eqn:Ek; [lia|].
  destruct (digits_string_head k (Z.abs n) "") as (rest & E).
  rewrite E. eexists; eexists; split; [reflexivity|].
  assert (Z.of_nat k = ndigits n - 1) by lia.
  assert (P : 0 < 10 ^ Z.of_nat k) by (apply Z.pow_pos_nonneg; lia).
  apply digit_chr_nonzero.
  assert (1 <= Z.abs n / 10 ^ Z.of_nat k).
  { apply Z.div_le_lower_bound; [lia|]. rewrite Z.mul_1_r. now rewrite H. }
  assert (Z.abs n / 10 ^ Z.of_nat k < 10).
  { apply Z.div_lt_upper_bound; [lia|].
    replace (10 ^ Z.of_nat k * 10) with (10 ^ ndigits n); [exact Hhi|].
    replace (ndigits n) with (Z.of_nat k + 1) by lia.
    now rewrite Z.pow_add_r, Z.pow_1_r by lia. }
  rewrite Z.mod_small; lia.
Qed.

(** The text of [format(d, ".50E")] for a decimal that is not zero. *)
Lemma dec_format_E_shape (d : Decimal) :
  coef d <> 0 ->
  exists (lead : ascii) (frac : string),
    dec_format_E 50 d
    = (if coef d <? 0 then "-" else "") ++ String lead ("." ++ frac) ++ "E"
      ++ signed_int (adjusted (dec_round d 51)) /\
    lead <> "0"%char /\ String.length frac = 50%nat /\
    String lead frac = digits_of (coef (dec_round d 51)).
Proof.
  intros Hc. pose proof (dec_round_digits d 51 ltac:(lia) Hc) as N.
  unfold dec_format_E. cbv zeta. change (50 + 1) with 51.
  set (r := dec_round d 51) in *.
  assert (Hr : coef r <> 0).
  { intros E. rewrite E in N. discriminate N. }
  destruct (Z.eqb_spec (coef r) 0) as [|_]; [contradiction|].
  change (1 <? 0) with false. cbv iota. rewrite N.
  change (51 <? 1) with false. cbv iota.
  destruct (digits_of_head (coef r) Hr) as (a & rest & E & Ha).
  pose proof (digits_of_length (coef r)) as L. rewrite N, E in L.
  cbn [String.length] in L.
  assert (Lr : String.length rest = 50%nat) by lia.
  rewrite E. change (Z.to_nat 1) with 1%nat. cbn [take drop is_empty].
  destruct rest as [|b rest']; [discriminate Lr|]. cbn [is_empty].
  exists a, (String b rest'). split; [|split; [exact Ha|split; [exact Lr|reflexivity]]].
  unfold adjusted. rewrite N.
  replace (expo r + 51 - 1) with (51 + expo r - 1) by lia. reflexivity.
Qed.

(** X18: whatever [format_bigfloat] returns for a dict with a [value] is
    of one of two shapes.  Either it is the first 80 characters of
    [str] of the converted value, or the value is not zero and the text
    is a sign (for a negative value), one digit that is not zero, a
    point, exactly fifty digits, the letter E and a signed exponent,
    the fifty-one digits being those of the value rounded half-even to
    51 significant digits. *)
Theorem format_bigfloat_shapes (str_other : json -> string)
      (kv : list (string * json)) (v : json) (c c' : context) (out : string) :
  dict_get kv "value" = Some v ->
  format_bigfloat str_other (JDict kv) c = (inr out, c') ->
  exists d,
    convert_any_result v = inr d /\
    (out = take 80 (dec_str d) \/
     (coef d <> 0 /\
      exists (lead : ascii) (frac : string),
        out = (if coef d <? 0 then "-" else "") ++ String lead ("." ++ frac) ++ "E"
              ++ signed_int (adjusted (dec_round d 51)) /\
        lead <> "0"%char /\ String.length frac = 50%nat /\
        String lead frac = digits_of (coef (dec_round d 51)))).
Proof.
  intros Hv. rewrite format_bigfloat_run. cbn [is_precision_number]. rewrite Hv.
  unfold get_or. rewrite Hv.
  destruct (convert_any_result v) as [e|d]; [discriminate|].
  unfold format_decimal. rewrite bind_run, dec_abs_run.
  destruct (dec_fix _ _) as [e|a]; [discriminate|].
  destruct (dec_ltb a (mkDecimal 1 (-10)) && negb (dec_is_zero d)) eqn:T.
  - cbn [ret]. intros [= <- _]. exists d. split; [reflexivity|]. right.
    apply andb_true_iff in T as [_ T]. apply negb_true_iff in T.
    unfold dec_is_zero in T. apply Z.eqb_neq in T.
    split; [exact T|]. apply dec_format_E_shape, T.
  - cbn [ret]. intros [= <- _]. exists d. split; [reflexivity|]. now left.
Qed.

Lemma format_bigfloat_shapes_witness :
  exists d,
    convert_any_result (JString "0.00000000000000000000000000000000000001") = inr d /\
    ("3.63797880709171295166015625000000000000000000000000E-12" = take 80 (dec_str d) \/
     (coef d <> 0 /\
      exists (lead : ascii) (frac : string),
        "3.63797880709171295166015625000000000000000000000000E-12"
        = (if coef d <? 0 then "-" else "") ++ String lead ("." ++ frac) ++ "E"
          ++ signed_int (adjusted (dec_round d 51)) /\
        lead <> "0"%char /\ String.length frac = 50%nat /\
        String lead frac = digits_of (coef (dec_round d 51)))).
Proof.
  apply (format_bigfloat_shapes (fun _ => "")
           [("value", JString "0.00000000000000000000000000000000000001")]
           _ default_context (mkContext 1000)).
  - reflexivity.
  - vm_compute. reflexivity.
Defined.

(* ------------------------------------------------------------------ *)
(** ** Documents in good form *)

Lemma representable_abs (c : context) (d : Decimal) :
  representable c d -> representable c (mkDecimal (Z.abs (coef d)) (expo d)).
Proof.
  unfold representable, adjusted. cbn [coef expo]. now rewrite ndigits_abs.
Qed.

Lemma format_decimal_total (d : Decimal) :
  representable (mkContext 1000) d ->
  exists out, format_decimal d (mkContext 1000) = (inr out, mkContext 1000).
Proof.
  intros R. unfold format_decimal. rewrite bind_run, dec_abs_run.
  rewrite (dec_fix_representable _ _ (representable_abs _ _ R)).
  destruct (dec_ltb _ _ && _); eexists; reflexivity.
Qed.

Lemma well_formed_renders (str_other : json -> string) (v : json) :
  well_formed_number v ->
  forall c, exists out, format_bigfloat str_other v c = (inr out, mkContext 1000).
Proof.
  intros (kv & s & -> & Hv & Hb & Hc) c.
  destruct (convert_exact s c Hb Hc) as (d & R & Rep & _).
  rewrite binary_to_decimal_run in R. injection R as R.
  rewrite format_bigfloat_run. cbn [is_precision_number]. rewrite Hv.
  unfold get_or. rewrite Hv. cbn [convert_any_result]. rewrite R.
  apply format_decimal_total, Rep.
Qed.

Lemma count_zeros_le (s : string) : count_zeros s <= len s.
Proof.
  induction s as [|a s IH]; [reflexivity|]. rewrite len_cons. cbn [count_zeros].
  pose proof (len_nonneg s). destruct (chr_eqb a "0"); lia.
Qed.

Lemma split_first_unsigned (s : string) :
  snd (split_first "." (unsigned_part s)) = snd (split_first "." s).
Proof.
  unfold unsigned_part. destruct (startswith "-" s) eqn:E; [|reflexivity].
  destruct s as [|a s]; [discriminate E|]. cbn [startswith] in E.
  apply andb_true_iff in E as [E _]. apply chr_eqb_eq in E. subst a.
  cbn [drop split_first]. change (chr_eqb "-" ".") with false. cbv iota.
  now destruct (split_first "." s).
Qed.

Lemma leading_zero_count_le (s : string) : leading_zero_count s <= digit_count s.
Proof.
  unfold leading_zero_count, digit_count. rewrite <- split_first_unsigned.
  destruct (split_first "." (unsigned_part s)) as [ip fp]. cbn [snd].
  pose proof (count_zeros_le fp). pose proof (len_nonneg ip). lia.
Qed.



Lemma well_formed_renders_any (str_other : json -> string) (v : json) :
  well_formed_number v -> renders str_other v.
Proof.
  intros H c. destruct (well_formed_renders str_other v H c) as (out & E).
  now exists out, (mkContext 1000).
Qed.

Lemma well_formed_state_ok (str_other : json -> string) (kv : list (string * json)) :
  well_formed_document kv -> state_ok str_other kv.
Proof.
  intros (vkv & x & y & more & w & h & Hvp & Hce & Hwi & Hhe & Wx & Wy & Ww & Wh & Hr).
  split; [|exact Hr]. unfold get_or. rewrite Hvp. cbn [viewport_ok].
  unfold get_or. rewrite Hce, Hwi, Hhe. cbn [center_ok].
  split; [split; now apply well_formed_renders_any|].
  split; [|now apply well_formed_renders_any].
  split; [now apply well_formed_renders_any|].
  intros wkv s -> Hs. destruct Ww as (wkv' & s' & [= <-] & Hs' & _ & Hc).
  rewrite Hs in Hs'. injection Hs' as <-.
  pose proof (leading_zero_count_le s). lia.
Qed.

Lemma well_formed_report (str_other json_dumps : json -> string)
      (kv : list (string * json)) (show_raw : bool) (c : context) :
  well_formed_document kv ->
  exists report c',
    format_viewport str_other json_dumps (JDict kv) show_raw c = (inr report, c').
Proof.
  intros W.
  destruct (format_viewport_lines_total str_other json_dumps kv show_raw c
              (well_formed_state_ok str_other kv W)) as (lines & c' & E).
  exists (join_lines lines), c'. unfold format_viewport. rewrite bind_run, E. reflexivity.
Qed.

Lemma sample_document_well_formed : well_formed_document sample_document.
Proof.
  do 6 eexists. repeat split; try reflexivity;
    try (do 2 eexists; repeat split; try reflexivity; vm_compute; discriminate).
  now left.
Qed.



(** X21: on a token that decodes to a document in good form, a run
    that does not ask for help ends with exit status 0, one text on the
    standard output (the report, or the JSON text with [--json]) and
    nothing on the standard error. *)
Theorem main_succeeds_on_good_document
      (urlparse_fragment : string -> exn + string)
      (zlib_decompress : list Z -> exn + list Z)
      (decode_utf8 : list Z -> exn + string)
      (json_loads : string -> exn + json)
      (str_other json_dumps : json -> string)
      (str_exn : string -> exn -> string)
      (args : list string) (u : string) (kv : list (string * json)) (c : context) :
  mem "-h" args = false -> mem "--help" args = false ->
  first_positional args = Some u -> is_empty u = false ->
  decode_fractalwonder_url urlparse_fragment zlib_decompress decode_utf8
    json_loads u = inr (JDict kv) ->
  well_formed_document kv ->
  exists text c',
    main urlparse_fragment zlib_decompress decode_utf8 json_loads str_other
      json_dumps str_exn args c = (mkOutput [text] [] 0, c') /\
    (mem "--json" args = true -> text = json_dumps (JDict kv) /\ c' = c) /\
    (mem "--json" args = false ->
     format_viewport str_other json_dumps (JDict kv) (mem "--raw" args) c
     = (inr text, c')).
Proof.
  intros H1 H2 Hu He Hd W. unfold main. rewrite H1, H2, Hu, He, Hd.
  destruct args as [|a r]; [discriminate Hu|]. cbn [orb]. cbv zeta.
  destruct (mem "--json" (a :: r)).
  - exists (json_dumps (JDict kv)), c. repeat split; intros; try discriminate; auto.
  - destruct (well_formed_report str_other json_dumps kv (mem "--raw" (a :: r)) c W)
      as (report & c' & E).
    rewrite E. exists report, c'. repeat split; intros; try discriminate; auto.
Qed.

Lemma main_succeeds_on_good_document_witness :
  exists text c',
    main url_fragment inflate_stored ascii_text
      (fun _ => inr (JDict sample_document)) (fun _ => "") (fun _ => "")
      (fun _ _ => "") ["--raw"; "v1:AQIA_f97fQ"] default_context
    = (mkOutput [text] [] 0, c') /\
    (mem "--json" ["--raw"; "v1:AQIA_f97fQ"] = true ->
     text = (fun _ : json => "") (JDict sample_document) /\ c' = default_context) /\
    (mem "--json" ["--raw"; "v1:AQIA_f97fQ"] = false ->
     format_viewport (fun _ => "") (fun _ => "") (JDict sample_document)
       (mem "--raw" ["--raw"; "v1:AQIA_f97fQ"]) default_context
     = (inr text, c')).
Proof.
  apply (main_succeeds_on_good_document url_fragment inflate_stored ascii_text
           (fun _ => inr (JDict sample_document)) (fun _ => "") (fun _ => "")
           (fun _ _ => "") ["--raw"; "v1:AQIA_f97fQ"] "v1:AQIA_f97fQ"
           sample_document default_context);
    try reflexivity.
  apply sample_document_well_formed.
Defined.
(* ------------------------------------------------------------------ *)
(** ** Data after the padding *)

Lemma is_ascii_app (s t : string) : is_ascii (s ++ t) = is_ascii s && is_ascii t.
Proof.
  induction s as [|a s IH]; [reflexivity|]. cbn [append is_ascii].
  now rewrite IH, andb_assoc.
Qed.

(** Once the padding of the last group has been read, the loop stops:
    what follows the padded encoding of a byte string whose length is no
    multiple of three is not looked at. *)
Lemma a2b_encode_then (bs : list Z) :
  Forall is_byte bs -> Z.of_nat (List.length bs) mod 3 <> 0 ->
  forall t lc p,
    a2b_loop (translate_urlsafe (padded (urlsafe_b64encode_nopad bs)) ++ t) 0 lc p
    = inr bs.
Proof.
  induction bs as [| a | a b | a b c r IH] using list_ind3; intros H N t lc p.
  - now cbn in N.
  - apply Forall_inv in H.
    destruct (byte_sextets a 0 0 H) as (S1 & _ & _ & _ & S5 & _); try (unfold is_byte; lia).
    cbn [urlsafe_b64encode_nopad]. unfold padded. rewrite !len_cons.
    change (len "") with 0.
    change (repeat_chr "=" ((4 - (0 + 1 + 1) mod 4) mod 4)) with "==".
    cbn [append]. rewrite !translate_cons. cbn [append].
    rewrite (a2b_loop_data _ _ 0 lc p S1). cbn [Z.eqb].
    rewrite (a2b_loop_data _ _ 1 _ 0 S5). cbn [Z.eqb Pos.eqb].
    destruct (sextet_bytes _ _ S1 S5) as (-> & _ & _).
    cbn. f_equal. f_equal. unfold is_byte in H. Z.div_mod_to_equations. lia.
  - pose proof (Forall_inv H) as Ha. pose proof (Forall_inv (Forall_inv_tail H)) as Hb.
    destruct (byte_sextets a b 0 Ha Hb) as (S1 & S2 & _ & _ & _ & S6);
      try (unfold is_byte; lia).
    cbn [urlsafe_b64encode_nopad]. unfold padded. rewrite !len_cons.
    change (len "") with 0.
    change (repeat_chr "=" ((4 - (0 + 1 + 1 + 1) mod 4) mod 4)) with "=".
    cbn [append]. rewrite !translate_cons. cbn [append].
    rewrite (a2b_loop_data _ _ 0 lc p S1). cbn [Z.eqb].
    rewrite (a2b_loop_data _ _ 1 _ 0 S2). cbn [Z.eqb Pos.eqb].
    rewrite (a2b_loop_data _ _ 2 _ 0 S6). cbn [Z.eqb Pos.eqb].
    destruct (sextet_bytes _ _ S1 S2) as (-> & _ & _).
    destruct (sextet_bytes _ _ S2 S6) as (_ & -> & _).
    cbn. unfold is_byte in *.
    f_equal. f_equal; [|f_equal]; Z.div_mod_to_equations; lia.
  - pose proof (Forall_inv H) as Ha. pose proof (Forall_inv (Forall_inv_tail H)) as Hb.
    pose proof (Forall_inv (Forall_inv_tail (Forall_inv_tail H))) as Hc.
    pose proof (Forall_inv_tail (Forall_inv_tail (Forall_inv_tail H))) as Hr.
    destruct (byte_sextets a b c Ha Hb Hc) as (S1 & S2 & S3 & S4 & _ & _).
    assert (Nr : Z.of_nat (List.length r) mod 3 <> 0).
    { intros E. apply N. cbn [List.length]. rewrite !Nat2Z.inj_succ.
      replace (Z.succ (Z.succ (Z.succ (Z.of_nat (List.length r)))))
        with (Z.of_nat (List.length r) + 1 * 3) by lia.
      now rewrite Z.mod_add by lia. }
    cbn [urlsafe_b64encode_nopad]. rewrite padded_quad, !translate_cons. cbn [append].
    rewrite (a2b_loop_data _ _ 0 lc p S1). cbn [Z.eqb].
    rewrite (a2b_loop_data _ _ 1 _ 0 S2). cbn [Z.eqb Pos.eqb].
    rewrite (a2b_loop_data _ _ 2 _ 0 S3). cbn [Z.eqb Pos.eqb].
    rewrite (a2b_loop_data _ _ 3 _ 0 S4). cbn [Z.eqb Pos.eqb].
    rewrite (IH Hr Nr t 0 0). cbn [emit].
    destruct (sextet_bytes _ _ S1 S2) as (-> & _ & _).
    destruct (sextet_bytes _ _ S2 S3) as (_ & -> & _).
    destruct (sextet_bytes _ _ S3 S4) as (_ & _ & ->).
    unfold is_byte in *.
    f_equal. f_equal; [|f_equal; [|f_equal]]; Z.div_mod_to_equations; lia.
Qed.

(** X22: whatever follows the padding is ignored.  For a byte string
    whose length is no multiple of three, the padded URL-safe base64
    encoding followed by any ASCII text decodes to the byte string, and
    the decoder treats the token as it treats the token without that
    text. *)
Theorem data_after_padding_is_ignored (bs : list Z) (junk : string) :
  Forall is_byte bs -> Z.of_nat (List.length bs) mod 3 <> 0 ->
  is_ascii junk = true ->
  urlsafe_b64decode (repad (padded (urlsafe_b64encode_nopad bs) ++ junk)) = inr bs /\
  forall urlparse_fragment zlib_decompress decode_utf8 json_loads,
    decode_fractalwonder_url urlparse_fragment zlib_decompress decode_utf8
      json_loads ("v1:" ++ padded (urlsafe_b64encode_nopad bs) ++ junk)
    = decode_fractalwonder_url urlparse_fragment zlib_decompress decode_utf8
        json_loads ("v1:" ++ urlsafe_b64encode_nopad bs).
Proof.
  intros H N J.
  assert (E : urlsafe_b64decode (repad (padded (urlsafe_b64encode_nopad bs) ++ junk))
              = inr bs).
  { rewrite repad_padded. unfold padded at 1. unfold urlsafe_b64decode.
    rewrite !is_ascii_app, (is_ascii_padded _ (encode_ascii bs H)), J.
    unfold repeat_chr. replace (is_ascii (replicate _ "=")) with true
      by (symmetry; apply (is_ascii_app_pads "")).
    cbn [andb]. unfold a2b_base64. rewrite string_app_assoc, translate_app.
    now apply a2b_encode_then. }
  split; [exact E|]. intros up zd du jl.
  now rewrite !decode_token, E, (b64_roundtrip bs H).
Qed.

Lemma data_after_padding_is_ignored_witness :
  urlsafe_b64decode (repad (padded (urlsafe_b64encode_nopad [1; 2]) ++ "xyz"))
  = inr [1; 2] /\
  forall urlparse_fragment zlib_decompress decode_utf8 json_loads,
    decode_fractalwonder_url urlparse_fragment zlib_decompress decode_utf8
      json_loads ("v1:" ++ padded (urlsafe_b64encode_nopad [1; 2]) ++ "xyz")
    = decode_fractalwonder_url urlparse_fragment zlib_decompress decode_utf8
        json_loads ("v1:" ++ urlsafe_b64encode_nopad [1; 2]).
Proof.
  apply (data_after_padding_is_ignored [1; 2] "xyz").
  - unfold is_byte. repeat constructor; lia.
  - vm_compute. discriminate.
  - reflexivity.
Defined.
